(** * Shallow embedding of [batch_health_scorer.py] (context + override + abstain)

    Python floats are modelled as exact rationals [Q]: every float literal of
    the source is written as the decimal it denotes, and rounding of the
    floating-point operations is not modelled.  The transcendental functions
    [math.erf], [np.log] and [np.exp] are parameters of the development
    (a [Section] below); [math.sqrt(2)] is the double it evaluates to.

    Python dictionaries become association lists (first binding wins, as a
    dict has unique keys); [dict.get(k, d)] becomes a lookup with a default,
    [d[k]] a lookup in the [option] monad ([None] = [KeyError]). *)

From Stdlib Require Import QArith Qminmax Qround Qabs Ascii String List Bool ZArith Lia Lqa Sorted OrdersEx Permutation.
Import ListNotations.
Open Scope string_scope.
Open Scope Q_scope.

(** ** Generic helpers *)

Fixpoint assoc {A : Type} (k : string) (l : list (string * A)) : option A :=
  match l with
  | [] => None
  | (k', v) :: rest => if String.eqb k k' then Some v else assoc k rest
  end.

Definition get_or {A : Type} (o : option A) (d : A) : A :=
  match o with Some v => v | None => d end.

Definition bind_opt {A B : Type} (o : option A) (f : A -> option B) : option B :=
  match o with Some v => f v | None => None end.

Notation "'let*' x ':=' c 'in' k" := (bind_opt c (fun x => k))
  (at level 200, x name, c at level 100, k at level 200).

Definition Qltb (a b : Q) : bool := negb (Qle_bool b a).

(** [np.clip(p, lo, hi)] *)
Definition clip (p lo hi : Q) : Q := Qmin (Qmax p lo) hi.

(** Python's [round(x, n)]: round half to even on the exact value of [x]. *)
Definition round_int (y : Q) : Z :=
  let f := Qfloor y in
  let d := y - inject_Z f in
  if Qltb d (1#2) then f
  else if Qltb (1#2) d then (f + 1)%Z
  else if Z.even f then f else (f + 1)%Z.

Definition round_to (n : nat) (x : Q) : Q :=
  let s := inject_Z (10 ^ Z.of_nat n) in
  inject_Z (round_int (x * s)) / s.

(** ** Data model *)

(** One entry of [reference_stats.json]: every key may be absent. *)
Record MetricStats := {
  ms_mean : option Q; ms_std : option Q; ms_median : option Q;
  ms_mad : option Q; ms_p25 : option Q; ms_p75 : option Q }.

(** One entry of [genus_percentiles.json]. *)
Record GenusPct := {
  gp_p50 : option Q; gp_p90 : option Q; gp_p97_5 : option Q;
  gp_p99 : option Q; gp_lod : option Q }.

Definition Abund := list (string * Q).             (* pd.Series genus -> value *)
Definition RefStats := list (string * MetricStats). (* ref_stats *)
Definition GP := list (string * GenusPct).          (* gp *)
Definition WeightsDF := list (string * Q).          (* weights_df["HealthWeight"] *)

(** [gp.get(g, {}).get(field, d)] *)
Definition gp_get (gp : GP) (g : string) (field : GenusPct -> option Q) (d : Q) : Q :=
  match assoc g gp with
  | Some r => get_or (field r) d
  | None => d
  end.

(** [float(abund.get(g, 0.0))] *)
Definition abund_get (a : Abund) (g : string) : Q := get_or (assoc g a) 0.

Definition HEALTH_CORE : list string :=
  ["Streptococcus"; "Neisseria"; "Rothia"; "Haemophilus";
   "Granulicatella"; "Actinomyces"; "Veillonella"; "Gemella"].
Definition DISEASE_CORE : list string :=
  ["Fusobacterium"; "Porphyromonas"; "Tannerella"; "Treponema";
   "Prevotella"; "Peptostreptococcus"; "Parvimonas"; "Leptotrichia"; "Campylobacter"].
Definition FUSO_SYNERGY : list string :=
  ["Peptostreptococcus"; "Parvimonas"; "Leptotrichia"; "Prevotella"; "Campylobacter"].
Definition SCFA_SET : list string :=
  ["Veillonella"; "Prevotella"; "Eubacterium"; "Propionibacterium"; "Megasphaera"].

Definition mem (g : string) (s : list string) : bool := existsb (String.eqb g) s.

(** A fired panel: the dict stored in [risks[name]]. *)
Record RiskResult := {
  level : string; marker : string; panel_score : Q; threshold : Q }.

(** Entries of the [decision] list.  Each constructor stands for the
    message string the source appends (the f-string fields are kept). *)
Inductive Trace :=
| TrOsccExtreme       (* "OSCC: extreme Fusobacterium (>=p99 or >=0.20)" *)
| TrOsccHigh          (* "OSCC: high Fusobacterium (>=p97.5) + synergy/..." *)
| TrPerio (hits : nat) (* f"Periodontitis: {red_hits}/3 red-complex genera >= p90" *)
| TrHalitosis         (* "Halitosis: Solobacterium >= p90 or high Fuso + low diversity" *)
| TrDominance         (* "Dominance: OSCC risk capped composite at 50" *)
| TrAbstain (coverage : Q). (* f"Abstain: low coverage ({coverage:.0%} genera >= LOD)" *)

Record KeyMetrics := {
  shannon_diversity : Q; beneficial_pathogen_log_ratio : Q; health_balance : Q;
  scfa_producer_abundance : Q; pathogen_load : Q; coverage_lod : Q }.

Record AnalysisResult := {
  clinical_health_index : Q;
  category_label : string;
  category_color : string;
  key_metrics : KeyMetrics;
  composite_score : Q;
  disease_risks : list (string * RiskResult);
  raw_abundances : Abund;
  decision_trace : list Trace }.

Definition OSCC : string := "Oral Cancer (OSCC)".
Definition PERIO : string := "Periodontitis (Red Complex)".
Definition HALI : string := "Halitosis (VSC)".

(** [np.interp(x, xp, fp)] for increasing [xp]: linear between knots,
    [fp[0]] left of the first knot and [fp[-1]] right of the last one. *)
Fixpoint interp_from (x : Q) (pts : list (Q * Q)) : Q :=
  match pts with
  | [] => 0
  | [(_, y)] => y
  | (xa, ya) :: (((xb, yb) :: _) as rest) =>
      if Qltb x xb then ya + (x - xa) * (yb - ya) / (xb - xa)
      else interp_from x rest
  end.

Definition np_interp (x : Q) (xp fp : list Q) : Q :=
  match combine xp fp with
  | [] => 0
  | ((x0, y0) :: _) as pts => if Qle_bool x x0 then y0 else interp_from x pts
  end.

(** ** The scorer *)

Section Scorer.

(** [math.erf], [np.log], [np.exp]. *)
Variable erf : Q -> Q.
Variable log : Q -> Q.
Variable exp : Q -> Q.

(** [math.sqrt(2)] as the double it returns. *)
Definition sqrt2 : Q := 6369051672525773 # 4503599627370496.

(** [stats.get("mad", 0) or 0] *)
Definition mad_of (stats : MetricStats) : Q := get_or (ms_mad stats) 0.

(** [stats.get("std", 1.0) or 1.0] *)
Definition sd_of (stats : MetricStats) : Q :=
  match ms_std stats with
  | Some s => if Qeq_bool s 0 then 1.0 else s
  | None => 1.0
  end.

Definition robust_percentile (x : Q) (stats : MetricStats) : option Q :=
  let mad := mad_of stats in
  let* z := (if Qltb 0 mad
             then let* med := ms_median stats in Some (0.6745 * (x - med) / mad)
             else Some ((x - get_or (ms_mean stats) 0.0) / sd_of stats)) in
  let p := 50 * (1 + erf (z / sqrt2)) in
  Some (clip p 0 100).

Definition sum_vals (l : list Q) : Q := fold_right Qplus 0 l.

Definition safe_gmean (vals : list Q) : Q :=
  let eps := 1e-6 in
  let x := map (fun v => log (if Qeq_bool v 0 then eps else v)) vals in
  exp (sum_vals x / inject_Z (Z.of_nat (length x))).


(** Line 69: [abund.clip(lower=0) / max(1e-12, abund.sum())]. *)
Definition normalize (abund : Abund) : Abund :=
  let s := sum_vals (map snd abund) in
  map (fun '(g, v) => (g, Qmax v 0 / Qmax 1e-12 s)) abund.

(** Lines 74-81: returns [(above_lod, total_considered)]. *)
Fixpoint coverage_counts (gp : GP) (abund : Abund) : nat * nat :=
  match abund with
  | [] => (0%nat, 0%nat)
  | (g, v) :: rest =>
      let '(above, total) := coverage_counts gp rest in
      let lod := gp_get gp g gp_lod 0.0 in
      if Qltb 0 v || Qltb 0 lod
      then ((if Qle_bool (Qmax lod 0.0) v then S above else above), S total)
      else (above, total)
  end.

(** Line 82. *)
Definition coverage_of (gp : GP) (abund : Abund) : Q :=
  let '(above, total) := coverage_counts gp abund in
  inject_Z (Z.of_nat above) / inject_Z (Z.of_nat (Nat.max 1 total)).

(** Lines 86-87. *)
Definition shannon_of (abund : Abund) : Q :=
  let p := filter (Qltb 0) (map snd abund) in
  match p with
  | [] => 0
  | _ => - sum_vals (map (fun v => v * log v) p)
  end.

(** [abund[abund.index.isin(S)].sum()] *)
Definition sum_where (abund : Abund) (inS : string -> bool) : Q :=
  sum_vals (map snd (filter (fun '(g, _) => inS g) abund)).

Definition is_beneficial (w : WeightsDF) (g : string) : bool :=
  existsb (fun '(g', hw) => String.eqb g g' && Qltb 0 hw) w.
Definition is_pathogenic (w : WeightsDF) (g : string) : bool :=
  existsb (fun '(g', hw) => String.eqb g g' && Qltb hw 0) w.

(** [float(abund.get(g,0.0)) >= gp.get(g,{}).get("p90",1.0)] *)
Definition p90_hit (gp : GP) (abund : Abund) (g : string) : bool :=
  Qle_bool (gp_get gp g gp_p90 1.0) (abund_get abund g).

Definition count_hits (gp : GP) (abund : Abund) (gs : list string) : nat :=
  length (filter (p90_hit gp abund) gs).

Definition RED : list string := ["Porphyromonas"; "Tannerella"; "Treponema"].

(** Lines 109-160: the risk panels; returns [risks] and the [decision]
    entries they append. *)
Definition risk_panels (abund : Abund) (gp : GP) (shannon sh_p25 hb : Q)
  : list (string * RiskResult) * list Trace :=
  let fuso := abund_get abund "Fusobacterium" in
  let f_p975 := gp_get gp "Fusobacterium" gp_p97_5 0.2 in
  let f_p99 := gp_get gp "Fusobacterium" gp_p99 0.25 in
  let synergy_hits := count_hits gp abund FUSO_SYNERGY in
  let low_diversity := Qle_bool shannon sh_p25 in
  let health_suppressed := Qltb hb 40.0 in
  let oscc_extreme := Qle_bool (Qmax f_p99 0.20) fuso in
  let oscc_high := Qle_bool f_p975 fuso
                   && (Nat.leb 1 synergy_hits || low_diversity || health_suppressed) in
  let '(r1, d1) :=
    if oscc_extreme then
      ([(OSCC, {| level := "High"; marker := "Fusobacterium (extreme)";
                  panel_score := round_to 4 fuso; threshold := f_p975 |})],
       [TrOsccExtreme])
    else if oscc_high then
      ([(OSCC, {| level := if Nat.leb 2 synergy_hits then "High" else "Moderate";
                  marker := "Fusobacterium + co-factors";
                  panel_score := round_to 4
                    (fuso + 0.5 * sum_vals (map (abund_get abund) FUSO_SYNERGY));
                  threshold := f_p975 |})],
       [TrOsccHigh])
    else ([], []) in
  let red_hits := count_hits gp abund RED in
  let '(r2, d2) :=
    if Nat.leb 2 red_hits then
      ([(PERIO, {| level := if Nat.eqb red_hits 2 then "Moderate" else "High";
                   marker := "Porphyromonas/Tannerella/Treponema";
                   panel_score := round_to 4 (sum_vals (map (abund_get abund) RED));
                   threshold := 0.02 |})],
       [TrPerio red_hits])
    else ([], []) in
  let '(r3, d3) :=
    if p90_hit gp abund "Solobacterium" || (Qle_bool f_p975 fuso && low_diversity) then
      ([(HALI, {| level := "Moderate"; marker := "Solobacterium/Fusobacterium context";
                  panel_score := round_to 4 (abund_get abund "Solobacterium" + 0.5 * fuso);
                  threshold := 0.01 |})],
       [TrHalitosis])
    else ([], []) in
  ((r1 ++ r2 ++ r3)%list, (d1 ++ d2 ++ d3)%list).

(** Lines 163-166. *)
Definition composite_of (sh ra hb sc pa : Q) : Q :=
  0.20 * sh + 0.25 * ra + 0.20 * hb + 0.15 * sc + 0.20 * pa.

(** Lines 173-174. *)
Definition chi_of (composite : Q) : Q :=
  clip (np_interp composite [35.0; 50.0; 70.0] [-4.0; 0.0; 4.0]) (-10) 10.

(** Lines 180-182. *)
Definition category_of (abstain : bool) (chi : Q) : string :=
  if abstain then "Needs review"
  else if Qle_bool 3 chi then "Excellent"
  else if Qle_bool 1 chi then "Good"
  else if Qle_bool (-1) chi then "Average"
  else if Qle_bool (-3) chi then "Below Average"
  else "Non-Ideal".

(** Lines 188-189. *)
Definition color_of (abstain : bool) (category : string) : string :=
  if abstain then "grey"
  else if String.eqb category "Excellent" || String.eqb category "Good" then "green"
  else if String.eqb category "Average" then "yellow"
  else "red".


(** Lines 65-203. *)
Definition analyze_sample (abund0 : Abund) (ref_stats : RefStats)
    (weights_df : WeightsDF) (gp : GP) : option AnalysisResult :=
  let abund := normalize abund0 in
  let eps := 1e-6 in
  (* detection coverage *)
  let coverage := coverage_of gp abund in
  let low_coverage := Qltb coverage 0.4 in
  (* core metrics *)
  let shannon := shannon_of abund in
  let benef := sum_where abund (is_beneficial weights_df) in
  let patho := sum_where abund (is_pathogenic weights_df) in
  let scfa_sum := sum_where abund (fun g => mem g SCFA_SET) in
  let bp_lr := log ((benef + eps) / (patho + eps)) in
  let hc := safe_gmean (map (abund_get abund) HEALTH_CORE) in
  let dc := safe_gmean (map (abund_get abund) DISEASE_CORE) in
  let health_balance_raw := log ((hc + eps) / (dc + eps)) in
  (* percentilize metrics *)
  let* st_sh := assoc "shannon" ref_stats in
  let* sh := robust_percentile shannon st_sh in
  let* st_ra := assoc "bp_log_ratio" ref_stats in
  let* ra := robust_percentile bp_lr st_ra in
  let* st_hb := assoc "health_balance" ref_stats in
  let* hb := robust_percentile health_balance_raw st_hb in
  let* st_sc := assoc "scfa" ref_stats in
  let* sc := robust_percentile scfa_sum st_sc in
  let* st_pa := assoc "pathogen_load" ref_stats in
  let* pa0 := robust_percentile patho st_pa in
  let pa := 100 - pa0 in
  (* risk panels *)
  let* sh_p25 := ms_p25 st_sh in
  let '(risks, decision) := risk_panels abund gp shannon sh_p25 hb in
  (* composite scoring with risk dominance *)
  let composite := composite_of sh ra hb sc pa in
  let '(composite, decision) :=
    if match assoc OSCC risks with Some _ => true | None => false end
    then (Qmin composite 50.0, (decision ++ [TrDominance])%list)
    else (composite, decision) in
  let chi := chi_of composite in
  let abstain := low_coverage in
  let decision := if abstain then (decision ++ [TrAbstain coverage])%list else decision in
  let category := category_of abstain chi in
  Some {| clinical_health_index := round_to 2 chi;
          category_label := category;
          category_color := color_of abstain category;
          key_metrics := {| shannon_diversity := round_to 3 shannon;
                            beneficial_pathogen_log_ratio := round_to 3 bp_lr;
                            health_balance := round_to 3 health_balance_raw;
                            scfa_producer_abundance := round_to 4 scfa_sum;
                            pathogen_load := round_to 4 patho;
                            coverage_lod := round_to 3 coverage |};
          composite_score := round_to 1 composite;
          disease_risks := risks;
          raw_abundances := abund;
          decision_trace := decision |}.

End Scorer.

(** ** Stand-ins for the transcendental functions, used to run the model
    on concrete samples: a monotone, odd clipped identity for [erf] and
    first-order expansions for [log] and [exp]. *)
Definition erf_lin (z : Q) : Q := Qmin (Qmax z (-1)) 1.
Definition log_lin (x : Q) : Q := x - 1.
Definition exp_lin (x : Q) : Q := 1 + x.

Definition stats_std : MetricStats :=
  {| ms_mean := Some 0.5; ms_std := Some 0.25; ms_median := Some 0.5;
     ms_mad := Some 0.2; ms_p25 := Some 0.3; ms_p75 := Some 0.7 |}.

Definition ref_example : RefStats :=
  [("shannon", stats_std); ("bp_log_ratio", stats_std); ("health_balance", stats_std);
   ("scfa", stats_std); ("pathogen_load", stats_std)].

Definition pct (p90 lod : Q) : GenusPct :=
  {| gp_p50 := Some (lod * 2); gp_p90 := Some p90; gp_p97_5 := Some (p90 * 2);
     gp_p99 := Some (p90 * 3); gp_lod := Some lod |}.

(** ** Readings of the spec, and helpers for stating the claims *)

(** The index map as the spec words it: the interpolation through
    (35, -4), (50, 0), (70, 4) with the outer segments continued linearly,
    then clamped to [-10, 10]. *)
Definition chi_linear_continued (composite : Q) : Q :=
  let v := if Qle_bool composite 50
           then 0 + (composite - 50) * (0 - -4) / (50 - 35)
           else 0 + (composite - 50) * (4 - 0) / (70 - 50) in
  clip v (-10) 10.

(** The [p90] entry of genus [g] in [gp], if there is one. *)
Definition p90_of (gp : GP) (g : string) : option Q :=
  match assoc g gp with Some r => gp_p90 r | None => None end.

(** ** Concrete inputs *)

(** A cohort table whose Fusobacterium p99 (0.18) is below the fixed
    override floor 0.20. *)
Definition gp_fuso_low : GP :=
  [("Fusobacterium", {| gp_p50 := Some 0.02; gp_p90 := Some 0.06; gp_p97_5 := Some 0.1;
                        gp_p99 := Some 0.18; gp_lod := Some 0.001 |})].

Definition abund_fuso_quarter : Abund :=
  [("Fusobacterium", 0.25); ("Streptococcus", 0.75)].

(** Fusobacterium at 0.25 over the override floor, and detection limits
    above the sample's abundances, so that coverage is 0. *)
Definition gp_witness : GP :=
  [("Fusobacterium", {| gp_p50 := Some 0.02; gp_p90 := Some 0.06; gp_p97_5 := Some 0.1;
                        gp_p99 := Some 0.18; gp_lod := Some 0.5 |});
   ("Streptococcus", pct 0.8 0.9)].

Definition empty_result : AnalysisResult :=
  {| clinical_health_index := 0; category_label := ""; category_color := "";
     key_metrics := {| shannon_diversity := 0; beneficial_pathogen_log_ratio := 0;
                       health_balance := 0; scfa_producer_abundance := 0;
                       pathogen_load := 0; coverage_lod := 0 |};
     composite_score := 0; disease_risks := []; raw_abundances := [];
     decision_trace := [] |}.

Definition result_witness : AnalysisResult :=
  get_or (analyze_sample erf_lin log_lin exp_lin abund_fuso_quarter ref_example [] gp_witness)
         empty_result.

(** Scenario B of the spec: two red-complex genera exactly at their p90. *)
Definition gp_red : GP :=
  [("Porphyromonas", pct 0.05 0.001); ("Tannerella", pct 0.02 0.001);
   ("Treponema", pct 0.03 0.001)].

Definition abund_red : Abund :=
  [("Porphyromonas", 0.05); ("Tannerella", 0.02); ("Treponema", 0);
   ("Streptococcus", 0.93)].

Definition abund_fuso_30 : Abund := [("Fusobacterium", 0.3); ("Streptococcus", 0.7)].

(** Percentiles of 0.4 and 0.6 against [stats_std]. *)
Definition pct_lo : Q := get_or (robust_percentile erf_lin 0.4 stats_std) 0.
Definition pct_hi : Q := get_or (robust_percentile erf_lin 0.6 stats_std) 0.

(** ** The rest of [batch_health_scorer.py] *)

(** [d[k] = v] on an insertion-ordered dict: an existing key keeps its
    place, a new key goes last. *)
Fixpoint dict_set {A : Type} (k : string) (v : A) (d : list (string * A))
  : list (string * A) :=
  match d with
  | [] => [(k, v)]
  | (k', v') :: rest =>
      if String.eqb k k' then (k', v) :: rest else (k', v') :: dict_set k v rest
  end.

(** [d.update(u)] *)
Definition dict_update {A : Type} (d u : list (string * A)) : list (string * A) :=
  fold_left (fun acc '(k, v) => dict_set k v acc) u d.

(** Lines 55-63.  [health_weight] is the [HealthWeight] column
    ([df[["HealthWeight"]]]) when [weights_csv] names an existing file that
    has that column, and [None] otherwise (no path, no file, or no such
    column).  The two sets are iterated in the order they are listed. *)
Definition load_weights_df (health_weight : option WeightsDF) : WeightsDF :=
  match health_weight with
  | Some w => w
  | None =>
      let data := map (fun g => (g, 0.5)) HEALTH_CORE in
      dict_update data (map (fun g => (g, -0.5)) DISEASE_CORE)
  end.

(** Line 51 for one sample column (ASV id -> count):
    [raw.div(raw.sum(axis=0), axis=1).fillna(0)].  Division by a zero sum
    gives 0 in [Q], which is what [fillna(0)] makes of the NaN of [0/0];
    a nonzero count over a zero column sum (possible only with negative
    counts, which a count table does not hold) would be an infinity in
    pandas and is not modelled. *)
Definition rel_column (col : list (string * Q)) : list (string * Q) :=
  let s := sum_vals (map snd col) in
  map (fun '(asv, v) => (asv, v / s)) col.

(** Line 52: [rel.index.map(asv_map).fillna("Unknown")]. *)
Definition genus_of (asv_map : list (string * string)) (asv : string) : string :=
  get_or (assoc asv asv_map) "Unknown".

(** One row added to a [groupby(...).sum()] accumulator, which is kept in
    sorted key order (groupby sorts its keys; strings compare by code
    point, as [String.compare] compares bytes). *)
Fixpoint add_sorted (g : string) (v : Q) (acc : list (string * Q)) : list (string * Q) :=
  match acc with
  | [] => [(g, v)]
  | (g', v') :: rest =>
      match String.compare g g' with
      | Lt => (g, v) :: acc
      | Eq => (g', v' + v) :: rest
      | Gt => (g', v') :: add_sorted g v rest
      end
  end.

(** [df.groupby(key).sum()] on rows [(key, value)]. *)
Definition groupby_sum (rows : list (string * Q)) : list (string * Q) :=
  fold_left (fun acc '(g, v) => add_sorted g v acc) rows [].

(** Lines 51-53 for one sample column. *)
Definition genus_column (asv_map : list (string * string)) (col : list (string * Q)) : Abund :=
  groupby_sum (map (fun '(asv, v) => (genus_of asv_map asv, v)) (rel_column col)).

(** Lines 49-53.  The table is given by its columns (sample id -> column);
    every column lists the rows of the TSV, so all of them have the same
    ASV ids, and the per-column results the same genus index. *)
Definition load_feature_table_to_genus_abund (asv_map : list (string * string))
    (table : list (string * list (string * Q))) : list (string * Abund) :=
  map (fun '(sample_id, col) => (sample_id, genus_column asv_map col)) table.

(** Lines 223-228: the reports written (with their [sample_id]), in column
    order, and whether the loop ran to its end; a [KeyError] raised by
    [analyze_sample] stops [main] at that sample. *)
Fixpoint score_columns (erf log exp : Q -> Q) (ref_stats : RefStats) (weights : WeightsDF)
    (gp : GP) (cols : list (string * Abund)) : list (string * AnalysisResult) * bool :=
  match cols with
  | [] => ([], true)
  | (sample_id, abund) :: rest =>
      match analyze_sample erf log exp abund ref_stats weights gp with
      | None => ([], false)
      | Some res =>
          let '(written, finished) := score_columns erf log exp ref_stats weights gp rest in
          ((sample_id, res) :: written, finished)
      end
  end.

(** Lines 205-230, after the JSON inputs are loaded. *)
Definition batch_main (erf log exp : Q -> Q) (asv_map : list (string * string))
    (table : list (string * list (string * Q))) (ref_stats : RefStats)
    (health_weight : option WeightsDF) (gp : GP) : list (string * AnalysisResult) * bool :=
  let weights := load_weights_df health_weight in
  let genus_abund := load_feature_table_to_genus_abund asv_map table in
  score_columns erf log exp ref_stats weights gp genus_abund.

(** ** [integrated_sova_health_generator.py] *)

(** [sorted(items, key=lambda x: x[1], reverse=True)]: a stable sort on
    decreasing value (items of equal value keep their order), by insertion. *)
Fixpoint insert_desc (x : string * Q) (l : Abund) : Abund :=
  match l with
  | [] => [x]
  | y :: rest => if Qle_bool (snd x) (snd y) then y :: insert_desc x rest else x :: l
  end.

Definition sort_desc (l : Abund) : Abund := fold_left (fun acc x => insert_desc x acc) l [].

(** Line 17 of [plot_top]: the genera drawn in the bar chart. *)
Definition plot_top (abund : Abund) (topn : nat) : Abund := firstn topn (sort_desc abund).

(** ** [report_api.py] *)

Definition REPORTS_DIR : string := "professional_reports".

Definition nl : string := String (Ascii.ascii_of_nat 10) EmptyString.

(** [str.endswith(suf)] *)
Definition ends_with (suf s : string) : bool :=
  Nat.leb (String.length suf) (String.length s) &&
  String.eqb (substring (String.length s - String.length suf) (String.length suf) s) suf.

(** The class [[A-Za-z0-9_.-]]. *)
Definition safe_char (c : ascii) : bool :=
  (Ascii.leb "A" c && Ascii.leb c "Z") || (Ascii.leb "a" c && Ascii.leb c "z") ||
  (Ascii.leb "0" c && Ascii.leb c "9") ||
  Ascii.eqb c "_" || Ascii.eqb c "." || Ascii.eqb c "-".

Fixpoint all_safe (s : string) : bool :=
  match s with
  | EmptyString => true
  | String c rest => safe_char c && all_safe rest
  end.

(** [SAFE.match(s)] for [^[A-Za-z0-9_.-]+$]: one or more characters of the
    class, then the end of the string, where Python's [$] also matches
    just before a final newline. *)
Definition SAFE_match (s : string) : bool :=
  let body := if ends_with nl s then substring 0 (String.length s - 1) s else s in
  negb (String.eqb body "") && all_safe body.

(** [os.path.join(a, b)]: an absolute [b] replaces [a]. *)
Definition path_join (a b : string) : string :=
  if String.prefix "/" b then b else (a ++ "/" ++ b)%string.

Inductive Response :=
| HTTPException (status_code : Z)
| FileResponse (path : string)
| JSONResponse (pdf : string) (log : string).

(** Lines 48-55; [exists_path] is [os.path.exists]. *)
Definition download (exists_path : string -> bool) (filename : string) : Response :=
  if negb (SAFE_match filename) then HTTPException 400
  else
    let path := path_join REPORTS_DIR filename in
    if negb (exists_path path) then HTTPException 404
    else FileResponse path.

(** [max(pdfs, key=mtime)]: the first of the files with the largest key. *)
Definition max_by_mtime (p : string * Q) (rest : list (string * Q)) : string * Q :=
  fold_left (fun best x => if Qltb (snd best) (snd x) then x else best) rest p.

(** Lines 30-46.  [run] is the outcome of [check_output] ([Some out] on
    success, [None] for a [CalledProcessError]) and [listing] the files of
    [REPORTS_DIR] afterwards, with [os.path.getmtime] of each. *)
Definition generate (sample_id : string) (run : option string)
    (listing : list (string * Q)) : Response :=
  if negb (SAFE_match sample_id) then HTTPException 400
  else match run with
  | None => HTTPException 500
  | Some out =>
      let pdfs := filter (fun '(f, _) => String.prefix sample_id f && ends_with ".pdf" f) listing in
      match pdfs with
      | [] => HTTPException 500
      | p :: rest => JSONResponse ("/api/download/" ++ fst (max_by_mtime p rest)) out
      end
  end.

(** ** Concrete inputs for the remaining code *)

Definition abund_zero : Abund := [("Streptococcus", 0)].

Definition result_zero : AnalysisResult :=
  get_or (analyze_sample erf_lin log_lin exp_lin abund_zero ref_example [] gp_witness) empty_result.

Definition result_no_lod : AnalysisResult :=
  get_or (analyze_sample erf_lin log_lin exp_lin abund_fuso_quarter ref_example [] []) empty_result.

Definition asv_map_example : list (string * string) :=
  [("asv1", "Fusobacterium"); ("asv2", "Streptococcus"); ("asv3", "Streptococcus")].

(** Two sample columns; [asv4] is not in the map and counts as [Unknown]. *)
Definition table_example : list (string * list (string * Q)) :=
  [("S1", [("asv1", 5); ("asv2", 10); ("asv3", 5); ("asv4", 0)]);
   ("S2", [("asv2", 3); ("asv4", 1)])].

Definition batch_report_S1 : AnalysisResult :=
  get_or (assoc "S1" (fst (batch_main erf_lin log_lin exp_lin asv_map_example table_example
                                       ref_example None gp_witness))) empty_result.

(** A report directory where another sample's report ([S10]) is the newest
    file starting with [S1]. *)
Definition listing_example : list (string * Q) :=
  [("S1_Comprehensive_Report.pdf", 1); ("S10_Comprehensive_Report.pdf", 2); ("S1_notes.txt", 3)].

(** The example sample with a zero-abundance Porphyromonas row added. *)
Definition result_zero_row : AnalysisResult :=
  get_or (analyze_sample erf_lin log_lin exp_lin (("Porphyromonas", 0) :: abund_fuso_quarter)
                         ref_example [] gp_witness) empty_result.

(** A sample whose single entry, 1e-13, is below the normalization floor. *)
Definition abund_tiny : Abund := [("Streptococcus", 1e-13)].

Definition result_tiny : AnalysisResult :=
  get_or (analyze_sample erf_lin log_lin exp_lin abund_tiny ref_example [] gp_witness) empty_result.

(** ** Helpers for stating properties *)

(** Whether a panel (or any optional entry) is present. *)
Definition fired {A : Type} (o : option A) : bool := match o with Some _ => true | None => false end.

(** [y] comes no earlier than [x] in a list sorted by decreasing value. *)
Definition ge_val (x y : string * Q) : Prop := snd y <= snd x.

(** Strictly increasing keys. *)
Definition key_lt (a b : string * Q) : Prop := String.compare (fst a) (fst b) = Lt.

(** ** Rounding *)

Lemma round_int_ge (y : Q) (k : Z) : inject_Z k <= y -> (k <= round_int y)%Z.
Proof.
  intros H.
  assert (Hf : (k <= Qfloor y)%Z)
    by (rewrite <- (Qfloor_Z k); apply Qfloor_resp_le; exact H).
  unfold round_int.
  destruct (Qltb _ _); [lia|]. destruct (Qltb _ _); [lia|].
  destruct (Z.even _); lia.
Qed.

Lemma round_int_le (y : Q) (k : Z) : y <= inject_Z k -> (round_int y <= k)%Z.
Proof.
  intros H.
  assert (Hf : (Qfloor y <= k)%Z)
    by (rewrite <- (Qfloor_Z k); apply Qfloor_resp_le; exact H).
  assert (Hl := Qfloor_le y).
  unfold round_int.
  destruct (Z.eq_dec (Qfloor y) k) as [E|E].
  - rewrite E in *.
    assert (Hd : Qltb (y - inject_Z k) (1#2) = true).
    { unfold Qltb. apply negb_true_iff, not_true_iff_false. intro C.
      apply Qle_bool_iff in C. lra. }
    rewrite Hd. reflexivity.
  - destruct (Qltb _ _); [lia|]. destruct (Qltb _ _); [lia|].
    destruct (Z.even _); lia.
Qed.

Lemma scale_nonneg (n : nat) : 0 <= / inject_Z (10 ^ Z.of_nat n).
Proof.
  apply Qinv_le_0_compat. change 0 with (inject_Z 0). rewrite <- Zle_Qle.
  apply Z.pow_nonneg. lia.
Qed.

Lemma round_to_ge (n : nat) (x : Q) (k : Z) :
  inject_Z k <= x * inject_Z (10 ^ Z.of_nat n) ->
  inject_Z k / inject_Z (10 ^ Z.of_nat n) <= round_to n x.
Proof.
  intros H. unfold round_to, Qdiv. apply Qmult_le_compat_r; [|apply scale_nonneg].
  rewrite <- Zle_Qle. apply round_int_ge. exact H.
Qed.

Lemma round_to_le (n : nat) (x : Q) (k : Z) :
  x * inject_Z (10 ^ Z.of_nat n) <= inject_Z k ->
  round_to n x <= inject_Z k / inject_Z (10 ^ Z.of_nat n).
Proof.
  intros H. unfold round_to, Qdiv. apply Qmult_le_compat_r; [|apply scale_nonneg].
  rewrite <- Zle_Qle. apply round_int_le. exact H.
Qed.

Ltac num_simpl :=
  repeat match goal with
  | |- context [inject_Z ?z] =>
      let v := eval compute in (inject_Z z) in change (inject_Z z) with v
  end.

Lemma round1_le_50 (x : Q) : x <= 50 -> round_to 1 x <= 50.
Proof.
  intros H. eapply Qle_trans; [apply (round_to_le 1 x 500)|].
  - num_simpl. lra.
  - apply Qle_bool_imp_le. reflexivity.
Qed.

Lemma round1_range (x : Q) : 0 <= x <= 100 -> 0 <= round_to 1 x <= 100.
Proof.
  intros [H1 H2]. split.
  - eapply Qle_trans; [|apply (round_to_ge 1 x 0)].
    + apply Qle_bool_imp_le. reflexivity.
    + num_simpl. lra.
  - eapply Qle_trans; [apply (round_to_le 1 x 1000)|].
    + num_simpl. lra.
    + apply Qle_bool_imp_le. reflexivity.
Qed.

Lemma round3_lt_04 (x : Q) : round_to 3 x < 0.4 -> x < 0.4.
Proof.
  intros H. apply Qnot_le_lt. intro C. apply (Qlt_not_le _ _ H).
  eapply Qle_trans; [|apply (round_to_ge 3 x 400)].
  - apply Qle_bool_imp_le. reflexivity.
  - num_simpl. lra.
Qed.

(** ** Percentiles and composite *)

Lemma clip_range (p : Q) : 0 <= clip p 0 100 <= 100.
Proof.
  unfold clip.
  destruct (Q.max_spec_le p 0) as [[H1 E1]|[H1 E1]];
  destruct (Q.min_spec_le (Qmax p 0) 100) as [[H2 E2]|[H2 E2]]; lra.
Qed.

Lemma robust_percentile_range erf x st p :
  robust_percentile erf x st = Some p -> 0 <= p <= 100.
Proof.
  unfold robust_percentile, bind_opt.
  destruct (Qltb 0 (mad_of st)); [destruct (ms_median st)|];
    intros H; try discriminate; injection H as <-; apply clip_range.
Qed.

Lemma Some_inj {A : Type} (x y : A) : Some x = Some y -> x = y.
Proof. intros H. injection H. trivial. Qed.

Ltac open_analysis H :=
  unfold analyze_sample in H; cbv beta zeta delta [bind_opt] in H;
  repeat (match type of H with
          | context [match ?x with _ => _ end] => destruct x eqn:?
          end; cbv beta iota in H; try discriminate H);
  repeat match goal with
  | E : context [match assoc ?k ?l with _ => _ end] |- _ =>
      destruct (assoc k l) eqn:?; cbv beta iota in E
  end;
  repeat match goal with
  | E : (_, _) = (?x, ?y) |- _ =>
      is_var x; is_var y; injection E; clear E; intros; subst x y
  end;
  match type of H with
  | Some _ = Some ?r => apply Some_inj in H; subst r
  end.

Ltac percentile_bounds :=
  repeat match goal with
  | Hr : robust_percentile _ _ _ = Some _ |- _ => apply robust_percentile_range in Hr
  end.

Lemma composite_range (sh ra hb sc pa : Q) :
  0 <= sh <= 100 -> 0 <= ra <= 100 -> 0 <= hb <= 100 -> 0 <= sc <= 100 ->
  0 <= pa <= 100 -> 0 <= composite_of sh ra hb sc pa <= 100.
Proof. unfold composite_of. intros. lra. Qed.

Lemma Qltb_true (a b : Q) : Qltb a b = true <-> a < b.
Proof.
  unfold Qltb. rewrite negb_true_iff, <- not_true_iff_false, Qle_bool_iff.
  split; [apply Qnot_le_lt | apply Qlt_not_le].
Qed.

Lemma Qltb_false (a b : Q) : Qltb a b = false <-> b <= a.
Proof.
  unfold Qltb. rewrite negb_false_iff, Qle_bool_iff. reflexivity.
Qed.

(** ** Claims about [analyze_sample] *)

(** C10: the reported [composite_score] always lies in [0, 100]: the five
    blended scores are clipped percentiles (pathogen load as 100 minus one),
    the weights are nonnegative and sum to 1, and the cap only lowers it. *)
Theorem composite_score_in_range (erf log exp : Q -> Q) (abund : Abund)
    (ref_stats : RefStats) (weights_df : WeightsDF) (gp : GP) (r : AnalysisResult) :
  analyze_sample erf log exp abund ref_stats weights_df gp = Some r ->
  0 <= composite_score r <= 100.
Proof.
  intros H. open_analysis H; cbn [composite_score]; apply round1_range;
    percentile_bounds;
    match goal with
    | |- context [composite_of ?a ?b ?c ?d ?e] =>
        assert (0 <= composite_of a b c d e <= 100) by (apply composite_range; lra)
    end;
    try match goal with
        | |- context [Qmin ?a ?b] => destruct (Q.min_spec_le a b) as [[? ?]|[? ?]]
        end; lra.
Qed.

(** C4: whenever the oral-cancer panel is in [disease_risks], the reported
    [composite_score] is at most 50.0 and the dominance cap is an entry of
    the decision trace. *)
Theorem oscc_caps_composite (erf log exp : Q -> Q) (abund : Abund)
    (ref_stats : RefStats) (weights_df : WeightsDF) (gp : GP) (r : AnalysisResult) :
  analyze_sample erf log exp abund ref_stats weights_df gp = Some r ->
  assoc OSCC (disease_risks r) <> None ->
  composite_score r <= 50 /\ In TrDominance (decision_trace r).
Proof.
  intros H Hosc. open_analysis H; cbn [composite_score disease_risks decision_trace] in *;
    try congruence;
    (split; [apply round1_le_50;
             match goal with
             | |- Qmin ?a ?b <= _ => destruct (Q.min_spec_le a b) as [[? ?]|[? ?]]
             end; lra
            | rewrite ?in_app_iff; simpl; tauto]).
Qed.

(** C5: when the reported coverage fraction [coverage_lod] is below 0.4, the
    category is "Needs review" shown in grey, and the index is still the
    interpolated value of the composite (it is not suppressed). *)
Theorem low_coverage_abstains (erf log exp : Q -> Q) (abund : Abund)
    (ref_stats : RefStats) (weights_df : WeightsDF) (gp : GP) (r : AnalysisResult) :
  analyze_sample erf log exp abund ref_stats weights_df gp = Some r ->
  coverage_lod (key_metrics r) < 0.4 ->
  category_label r = "Needs review" /\ category_color r = "grey" /\
  exists c, composite_score r = round_to 1 c /\ clinical_health_index r = round_to 2 (chi_of c).
Proof.
  intros H Hcov. open_analysis H; cbn in Hcov; apply round3_lt_04 in Hcov;
    try (apply Qltb_false in Heqb; lra);
    (split; [reflexivity | split; [reflexivity | eexists; split; reflexivity]]).
Qed.

(** ** The index map *)

Lemma Qle_bool_false (a b : Q) : Qle_bool a b = false -> b < a.
Proof.
  intros H. apply Qnot_le_lt. intro C. apply Qle_bool_iff in C. congruence.
Qed.

Ltac qbool :=
  repeat match goal with
  | H : Qle_bool _ _ = true |- _ => apply Qle_bool_iff in H
  | H : Qle_bool _ _ = false |- _ => apply Qle_bool_false in H
  | H : Qltb _ _ = true |- _ => apply Qltb_true in H
  | H : Qltb _ _ = false |- _ => apply Qltb_false in H
  end.

Lemma clip_id (v lo hi : Q) : lo <= v <= hi -> clip v lo hi == v.
Proof.
  intros [H1 H2]. unfold clip.
  destruct (Q.max_spec_le v lo) as [[? E1]|[? E1]];
  destruct (Q.min_spec_le (Qmax v lo) hi) as [[? E2]|[? E2]]; lra.
Qed.

(** The knots of the index map, as the piecewise function they define. *)
Lemma interp_knots (c : Q) :
  np_interp c [35.0; 50.0; 70.0] [-4.0; 0.0; 4.0] ==
  (if Qle_bool c 35 then -4
   else if Qle_bool c 50 then (c - 35) * (4 # 15) - 4
   else if Qle_bool c 70 then (c - 50) * (1 # 5)
   else 4).
Proof.
  unfold np_interp. cbn [combine interp_from].
  destruct (Qle_bool c 35.0) eqn:E1; destruct (Qltb c 50.0) eqn:E2;
  destruct (Qltb c 70.0) eqn:E3; destruct (Qle_bool c 35) eqn:E4;
  destruct (Qle_bool c 50) eqn:E5; destruct (Qle_bool c 70) eqn:E6; qbool;
  first [ exfalso; lra | field
        | assert (Hc : c == 50) by lra; rewrite Hc; field
        | assert (Hc : c == 70) by lra; rewrite Hc; field ].
Qed.

(** C2 (counterexample): at composite 0 the code's index is -4, while the
    spec's reading (linear continuation of the first segment, then the
    clamp) gives -10. *)
Lemma chi_of_no_extrapolation :
  chi_of 0 == -4 /\ chi_linear_continued 0 == -10 /\
  ~ (chi_of 0 == chi_linear_continued 0).
Proof. split; [reflexivity | split; [reflexivity | intro H; discriminate H]]. Qed.

(** C2 (amended): the index is [np.interp] through the knots
    (35, -4), (50, 0), (70, 4): linear between consecutive knots, held at -4
    for a composite of at most 35 and at 4 for a composite of at least 70;
    it stays in [-4, 4], so the clamp to [-10, 10] never changes it. *)
Theorem chi_of_interp (c : Q) :
  chi_of c == (if Qle_bool c 35 then -4
               else if Qle_bool c 50 then (c - 35) * (4 # 15) - 4
               else if Qle_bool c 70 then (c - 50) * (1 # 5)
               else 4) /\
  -4 <= chi_of c <= 4.
Proof.
  assert (Hb : -4 <= (if Qle_bool c 35 then -4
               else if Qle_bool c 50 then (c - 35) * (4 # 15) - 4
               else if Qle_bool c 70 then (c - 50) * (1 # 5)
               else 4) <= 4).
  { destruct (Qle_bool c 35) eqn:E1; destruct (Qle_bool c 50) eqn:E2;
    destruct (Qle_bool c 70) eqn:E3; qbool; lra. }
  unfold chi_of. rewrite (clip_id _ (-10) 10); rewrite interp_knots; [split; [reflexivity|exact Hb]|lra].
Qed.

(** ** Risk panels *)

Ltac is_bool b := match type of b with bool => idtac end.

(** C6: when the three red-complex genera all have a p90 entry, the
    periodontitis panel fires exactly when at least two of them reach their
    p90 (equality counts as a hit), "Moderate" at two hits, "High" at three. *)
Theorem red_complex_panel (abund : Abund) (gp : GP) (shannon sh_p25 hb t1 t2 t3 : Q) :
  p90_of gp "Porphyromonas" = Some t1 ->
  p90_of gp "Tannerella" = Some t2 ->
  p90_of gp "Treponema" = Some t3 ->
  let hits := ((if Qle_bool t1 (abund_get abund "Porphyromonas") then 1 else 0)
             + (if Qle_bool t2 (abund_get abund "Tannerella") then 1 else 0)
             + (if Qle_bool t3 (abund_get abund "Treponema") then 1 else 0))%nat in
  option_map level (assoc PERIO (fst (risk_panels abund gp shannon sh_p25 hb))) =
  (if Nat.leb 2 hits then Some (if Nat.eqb hits 2 then "Moderate" else "High") else None).
Proof.
  intros H1 H2 H3 hits.
  assert (Hc : count_hits gp abund RED = hits).
  { unfold count_hits, RED, hits, p90_hit, gp_get. cbn [filter]. unfold p90_of in H1, H2, H3.
    destruct (assoc "Porphyromonas" gp); [|discriminate]. rewrite H1.
    destruct (assoc "Tannerella" gp); [|discriminate]. rewrite H2.
    destruct (assoc "Treponema" gp); [|discriminate]. rewrite H3. cbn [get_or].
    destruct (Qle_bool t1 _); destruct (Qle_bool t2 _); destruct (Qle_bool t3 _);
      reflexivity. }
  unfold risk_panels; cbv beta zeta. rewrite Hc. clearbody hits.
  repeat match goal with
  | |- context [if ?b then _ else _] => destruct b
  end; reflexivity.
Qed.

(** C7 (counterexample): Fusobacterium at 0.25 with a cohort p99 of 0.18
    fires the override path, whose triggering threshold is
    max(0.18, 0.20) = 0.20, but the recorded threshold is the p97.5, 0.1. *)
Lemma oscc_override_threshold_is_p975 :
  let rs := fst (risk_panels abund_fuso_quarter gp_fuso_low 2 1 50) in
  option_map marker (assoc OSCC rs) = Some "Fusobacterium (extreme)" /\
  option_map threshold (assoc OSCC rs) = Some 0.1 /\
  Qmax (gp_get gp_fuso_low "Fusobacterium" gp_p99 0.25) 0.20 == 0.20 /\
  ~ (0.1 == 0.20).
Proof.
  repeat split; try reflexivity. intro H. discriminate H.
Qed.

(** C7 (amended): a fired panel records a fixed threshold per panel: the
    oral-cancer panel (either path) the Fusobacterium p97.5 of the cohort
    (0.2 when absent), the periodontitis panel 0.02, the halitosis panel
    0.01. *)
Theorem panel_thresholds (abund : Abund) (gp : GP) (shannon sh_p25 hb : Q) :
  let rs := fst (risk_panels abund gp shannon sh_p25 hb) in
  option_map threshold (assoc OSCC rs) =
    option_map (fun _ => gp_get gp "Fusobacterium" gp_p97_5 0.2) (assoc OSCC rs) /\
  option_map threshold (assoc PERIO rs) = option_map (fun _ => 0.02) (assoc PERIO rs) /\
  option_map threshold (assoc HALI rs) = option_map (fun _ => 0.01) (assoc HALI rs).
Proof.
  intros rs. unfold rs, risk_panels. cbv beta zeta.
  repeat match goal with
  | |- context [if ?b then _ else _] => destruct b
  end;
  repeat split; reflexivity.
Qed.

(** C1 (counterexample): with Fusobacterium absent from the percentile
    table, a sample with 30% Fusobacterium still fires the oral-cancer
    panel (override path, on the default p99 of 0.25). *)
Lemma missing_fuso_still_fires :
  assoc "Fusobacterium" ([] : GP) = None /\
  option_map level
    (assoc OSCC (fst (risk_panels [("Fusobacterium", 0.3); ("Streptococcus", 0.7)] [] 2 1 50)))
  = Some "High".
Proof. split; reflexivity. Qed.

(** C1 (amended): a genus absent from the percentile table counts as a p90
    hit only when its abundance reaches the 1.0 sentinel; an absent
    Fusobacterium instead gets p97.5 = 0.2 and p99 = 0.25, so the
    oral-cancer panel fires on its abundance alone: at 0.25 or more, or at
    0.2 or more with a co-factor. *)
Theorem missing_genus_gates (abund : Abund) (gp : GP) (shannon sh_p25 hb : Q) :
  (forall g, assoc g gp = None -> p90_hit gp abund g = Qle_bool 1.0 (abund_get abund g)) /\
  (assoc "Fusobacterium" gp = None ->
   match assoc OSCC (fst (risk_panels abund gp shannon sh_p25 hb)) with
   | Some _ => true | None => false end =
   (Qle_bool 0.25 (abund_get abund "Fusobacterium") ||
    (Qle_bool 0.2 (abund_get abund "Fusobacterium") &&
     (Nat.leb 1 (count_hits gp abund FUSO_SYNERGY) || Qle_bool shannon sh_p25 || Qltb hb 40.0)))).
Proof.
  split.
  - intros g Hg. unfold p90_hit, gp_get. rewrite Hg. reflexivity.
  - intros HF. unfold risk_panels. cbv beta zeta. unfold gp_get. rewrite HF. cbv beta iota.
    change (Qmax 0.25 0.20) with 0.25.
    repeat match goal with
    | |- context [if ?b then _ else _] => is_bool b; destruct b
    end; reflexivity.
Qed.

(** ** Normalization *)

Lemma sum_vals_scaled (l : Abund) (d : Q) :
  0 < d -> Forall (fun gv => 0 <= snd gv) l ->
  sum_vals (map snd (map (fun '(g, v) => (g, Qmax v 0 / d)) l)) == sum_vals (map snd l) / d.
Proof.
  intros Hd Hl. induction Hl as [|[g v] l Hv Hl IH]; cbn [map snd fst sum_vals fold_right].
  - field. lra.
  - unfold sum_vals in IH |- *. rewrite IH. cbn in Hv. rewrite (Q.max_l v 0) by exact Hv.
    field. lra.
Qed.

(** C3 (counterexample): a sample with a single positive entry of 1e-13 is
    divided by the 1e-12 floor, not by its sum: its entries sum to 0.1. *)
Lemma tiny_sample_not_renormalized :
  0 < 1e-13 /\ sum_vals (map snd (normalize [("Streptococcus", 1e-13)])) == 0.1 /\
  ~ (sum_vals (map snd (normalize [("Streptococcus", 1e-13)])) == 1).
Proof. split; [reflexivity | split; [reflexivity | intro H; discriminate H]]. Qed.

Lemma normalize_floor (abund : Abund) :
  Forall (fun gv => 0 <= snd gv) abund ->
  sum_vals (map snd abund) < 1e-12 ->
  Forall2 (fun a b => fst a = fst b /\ snd a == snd b / 1e-12) (normalize abund) abund.
Proof.
  intros Hpos Hs. unfold normalize. cbv zeta.
  assert (E : Qmax 1e-12 (sum_vals (map snd abund)) == 1e-12) by (apply Q.max_l; lra).
  revert E. generalize (Qmax 1e-12 (sum_vals (map snd abund))) as d. intros d E.
  clear Hs. induction Hpos as [|[g v] l Hv _ IH]; cbn [map]; [constructor|].
  constructor; [|exact IH].
  cbn [fst snd] in *. split; [reflexivity|]. rewrite E, (Q.max_l v 0) by exact Hv. reflexivity.
Qed.

(** C3 (amended): for an input with no negative entry, the vector the
    analysis uses, reported as [raw_abundances], is the normalized input:
    when the entries sum to at least 1e-12 it is the input divided by its
    sum, so its entries sum to 1; when they sum to less, each entry is
    divided by the 1e-12 floor instead. *)
Theorem raw_abundances_renormalized (erf log exp : Q -> Q) (abund : Abund)
    (ref_stats : RefStats) (weights_df : WeightsDF) (gp : GP) (r : AnalysisResult) :
  Forall (fun gv => 0 <= snd gv) abund ->
  analyze_sample erf log exp abund ref_stats weights_df gp = Some r ->
  raw_abundances r = normalize abund /\
  (1e-12 <= sum_vals (map snd abund) -> sum_vals (map snd (raw_abundances r)) == 1) /\
  (sum_vals (map snd abund) < 1e-12 ->
   Forall2 (fun a b => fst a = fst b /\ snd a == snd b / 1e-12) (raw_abundances r) abund).
Proof.
  intros Hpos H.
  assert (Hraw : raw_abundances r = normalize abund) by (open_analysis H; reflexivity).
  split; [exact Hraw|]. rewrite Hraw. split.
  - intros Hsum. unfold normalize.
    rewrite sum_vals_scaled; [| |exact Hpos].
    + rewrite (Q.max_r 1e-12 _) by exact Hsum. field.
      intro C. assert (0 < 1e-12) by reflexivity. lra.
    + assert (0 < 1e-12) by reflexivity.
      destruct (Q.max_spec_le 1e-12 (sum_vals (map snd abund))) as [[? ?]|[? ?]]; lra.
  - intros Hsum. exact (normalize_floor abund Hpos Hsum).
Qed.

(** ** The percentile normalizer *)

Lemma clip_mono (p q : Q) : p <= q -> clip p 0 100 <= clip q 0 100.
Proof.
  intros H. unfold clip.
  destruct (Q.max_spec_le p 0) as [[? ?]|[? ?]];
  destruct (Q.max_spec_le q 0) as [[? ?]|[? ?]];
  destruct (Q.min_spec_le (Qmax p 0) 100) as [[? ?]|[? ?]];
  destruct (Q.min_spec_le (Qmax q 0) 100) as [[? ?]|[? ?]]; lra.
Qed.

Lemma scale_mono (a b k : Q) : 0 < k -> a <= b -> a / k <= b / k.
Proof.
  intros Hk H. unfold Qdiv. apply Qmult_le_compat_r; [exact H|].
  apply Qlt_le_weak, Qinv_lt_0_compat. exact Hk.
Qed.

Lemma sqrt2_pos : 0 < sqrt2.
Proof. reflexivity. Qed.

(** C8: for fixed stats (with a positive std when the mean/std fallback is
    taken), [robust_percentile] is monotonically non-decreasing in its value,
    for any non-decreasing [erf]. *)
Theorem robust_percentile_monotone (erf : Q -> Q)
    (Herf : forall a b, a <= b -> erf a <= erf b)
    (stats : MetricStats) (x y p q : Q) :
  (mad_of stats <= 0 -> forall s, ms_std stats = Some s -> 0 < s) ->
  x <= y ->
  robust_percentile erf x stats = Some p ->
  robust_percentile erf y stats = Some q ->
  p <= q.
Proof.
  intros Hs Hxy Hp Hq. unfold robust_percentile, bind_opt in Hp, Hq.
  destruct (Qltb 0 (mad_of stats)) eqn:Em.
  - apply Qltb_true in Em. destruct (ms_median stats) as [med|]; [|discriminate].
    apply Some_inj in Hp. apply Some_inj in Hq. subst p q. apply clip_mono.
    assert (Hz : erf (0.6745 * (x - med) / mad_of stats / sqrt2)
                 <= erf (0.6745 * (y - med) / mad_of stats / sqrt2)).
    { apply Herf, scale_mono; [exact sqrt2_pos|]. apply scale_mono; [exact Em|].
      apply Qmult_le_l; [reflexivity | lra]. }
    lra.
  - apply Qltb_false in Em.
    assert (Hsd : 0 < sd_of stats).
    { unfold sd_of. destruct (ms_std stats) as [s|] eqn:Es.
      - destruct (Qeq_bool s 0); [reflexivity|]. exact (Hs Em s eq_refl).
      - reflexivity. }
    apply Some_inj in Hp. apply Some_inj in Hq. subst p q. apply clip_mono.
    assert (Hz : erf ((x - get_or (ms_mean stats) 0.0) / sd_of stats / sqrt2)
                 <= erf ((y - get_or (ms_mean stats) 0.0) / sd_of stats / sqrt2)).
    { apply Herf, scale_mono; [exact sqrt2_pos|]. apply scale_mono; [exact Hsd|]. lra. }
    lra.
Qed.

(** C9: with a positive MAD, the percentile of the stats' own median is
    50.0 (exactly, hence within 1e-6), for any [erf] with [erf 0 = 0]. *)
Theorem percentile_at_median (erf : Q -> Q) (Herf0 : forall z, z == 0 -> erf z == 0)
    (stats : MetricStats) (m : Q) :
  0 < mad_of stats -> ms_median stats = Some m ->
  exists p, robust_percentile erf m stats = Some p /\ p == 50 /\ Qabs (p - 50) <= 1e-6.
Proof.
  intros Hm Hmed. unfold robust_percentile, bind_opt.
  assert (Em : Qltb 0 (mad_of stats) = true) by (apply Qltb_true; exact Hm).
  rewrite Em, Hmed. eexists; split; [reflexivity|].
  assert (He : erf (0.6745 * (m - m) / mad_of stats / sqrt2) == 0)
    by (apply Herf0; unfold Qdiv; ring).
  assert (Hc : clip (50 * (1 + erf (0.6745 * (m - m) / mad_of stats / sqrt2))) 0 100 == 50)
    by (rewrite clip_id; lra).
  split; [exact Hc|].
  apply Qabs_case; intros; assert (0 < 1e-6) by reflexivity; lra.
Qed.

(** ** The remaining code: weights, coverage, normalization *)

Ltac eval_Qltb :=
  repeat match goal with
  | |- context [Qltb ?a ?b] =>
      let v := eval vm_compute in (Qltb a b) in change (Qltb a b) with v
  end.

(** Without a weights file, the beneficial genera are exactly [HEALTH_CORE] and the pathogenic ones exactly [DISEASE_CORE]. *)
Theorem fallback_weights_classes (g : string) :
  is_beneficial (load_weights_df None) g = mem g HEALTH_CORE /\
  is_pathogenic (load_weights_df None) g = mem g DISEASE_CORE.
Proof.
  assert (E : load_weights_df None =
    (map (fun g => (g, 0.5)) HEALTH_CORE ++ map (fun g => (g, -0.5)) DISEASE_CORE)%list) by reflexivity.
  rewrite E. unfold is_beneficial, is_pathogenic, mem, HEALTH_CORE, DISEASE_CORE.
  cbn [map app existsb]. eval_Qltb.
  rewrite ?andb_true_r, ?andb_false_r, ?orb_false_l, ?orb_false_r. split; reflexivity.
Qed.

Lemma coverage_counts_le (gp : GP) (l : Abund) :
  (fst (coverage_counts gp l) <= snd (coverage_counts gp l))%nat.
Proof.
  induction l as [|[g v] l IH]; cbn [coverage_counts]; [simpl; lia|].
  destruct (coverage_counts gp l) as [a t]. cbn [fst snd] in *. cbv beta iota.
  repeat match goal with |- context [if ?b then _ else _] => destruct b end;
    cbn [fst snd]; lia.
Qed.

Lemma coverage_of_range (gp : GP) (l : Abund) : 0 <= coverage_of gp l <= 1.
Proof.
  assert (Hle := coverage_counts_le gp l). unfold coverage_of.
  destruct (coverage_counts gp l) as [a t]. cbn [fst snd] in Hle.
  assert (Hm : 0 < inject_Z (Z.of_nat (Nat.max 1 t))).
  { change 0 with (inject_Z 0). rewrite <- Zlt_Qlt. lia. }
  split.
  - apply Qle_shift_div_l; [exact Hm|]. rewrite Qmult_0_l.
    change 0 with (inject_Z 0). rewrite <- Zle_Qle. lia.
  - apply Qle_shift_div_r; [exact Hm|]. rewrite Qmult_1_l. rewrite <- Zle_Qle. lia.
Qed.

Lemma round_to_Z (n : nat) (x : Q) (k : Z) : x == inject_Z k -> round_to n x == inject_Z k.
Proof.
  intros Hx.
  assert (Hp : 0 < inject_Z (10 ^ Z.of_nat n)).
  { change 0 with (inject_Z 0). rewrite <- Zlt_Qlt. apply Z.pow_pos_nonneg; lia. }
  assert (Hk : inject_Z (k * 10 ^ Z.of_nat n) / inject_Z (10 ^ Z.of_nat n) == inject_Z k).
  { rewrite inject_Z_mult. field. lra. }
  assert (Hs : x * inject_Z (10 ^ Z.of_nat n) == inject_Z (k * 10 ^ Z.of_nat n)).
  { rewrite inject_Z_mult, Hx. reflexivity. }
  assert (H1 := round_to_ge n x (k * 10 ^ Z.of_nat n) ltac:(lra)).
  assert (H2 := round_to_le n x (k * 10 ^ Z.of_nat n) ltac:(lra)).
  lra.
Qed.

Lemma round3_unit (x : Q) : 0 <= x <= 1 -> 0 <= round_to 3 x <= 1.
Proof.
  intros [H1 H2]. split.
  - eapply Qle_trans; [|apply (round_to_ge 3 x 0)].
    + apply Qle_bool_imp_le. reflexivity.
    + num_simpl. lra.
  - eapply Qle_trans; [apply (round_to_le 3 x 1000)|].
    + num_simpl. lra.
    + apply Qle_bool_imp_le. reflexivity.
Qed.

(** The reported detection coverage lies in [[0, 1]]. *)
Theorem coverage_lod_in_unit (erf log exp : Q -> Q) (abund : Abund)
    (ref_stats : RefStats) (weights_df : WeightsDF) (gp : GP) (r : AnalysisResult) :
  analyze_sample erf log exp abund ref_stats weights_df gp = Some r ->
  0 <= coverage_lod (key_metrics r) <= 1.
Proof.
  intros H. open_analysis H; cbn [key_metrics coverage_lod]; apply round3_unit, coverage_of_range.
Qed.

Lemma normalize_div_pos (abund : Abund) : 0 < Qmax 1e-12 (sum_vals (map snd abund)).
Proof.
  destruct (Q.max_spec_le 1e-12 (sum_vals (map snd abund))) as [[? E]|[? E]]; rewrite E;
    [|reflexivity]. assert (0 < 1e-12) by reflexivity. lra.
Qed.

Lemma div_nonneg (a d : Q) : 0 <= a -> 0 < d -> 0 <= a / d.
Proof.
  intros Ha Hd. apply Qle_shift_div_l; [exact Hd|]. rewrite Qmult_0_l. exact Ha.
Qed.

Lemma div_pos (a d : Q) : 0 < a -> 0 < d -> 0 < a / d.
Proof.
  intros Ha Hd. unfold Qdiv. apply Qmult_lt_0_compat; [exact Ha|].
  apply Qinv_lt_0_compat. exact Hd.
Qed.

Lemma normalize_keys_nonneg_aux (abund : Abund) :
  map fst (normalize abund) = map fst abund /\
  Forall (fun gv => 0 <= snd gv) (normalize abund).
Proof.
  unfold normalize. cbv zeta. assert (Hd := normalize_div_pos abund). revert Hd.
  generalize (Qmax 1e-12 (sum_vals (map snd abund))) as d. intros d Hd.
  induction abund as [|[g v] l IH]; cbn [map fst snd]; [split; [reflexivity|constructor]|].
  destruct IH as [IH1 IH2]. split; [rewrite IH1; reflexivity|].
  constructor; [|exact IH2]. cbn [snd]. apply div_nonneg; [apply Q.le_max_r|exact Hd].
Qed.

Lemma scale_by_one (l : Abund) (d : Q) :
  d == 1 -> Forall (fun gv => 0 <= snd gv) l ->
  Forall2 (fun a b => fst a = fst b /\ snd a == snd b) (map (fun '(g, v) => (g, Qmax v 0 / d)) l) l.
Proof.
  intros Hd Hl. induction Hl as [|[g v] l Hv Hl IH]; cbn [map]; constructor; [|exact IH].
  cbn [fst snd] in *. split; [reflexivity|]. rewrite (Q.max_l v 0) by exact Hv. rewrite Hd. field.
Qed.

Lemma normalize_unit (l : Abund) :
  Forall (fun gv => 0 <= snd gv) l -> sum_vals (map snd l) == 1 ->
  Forall2 (fun a b => fst a = fst b /\ snd a == snd b) (normalize l) l.
Proof.
  intros Hl Hs. unfold normalize. cbv zeta. apply scale_by_one; [|exact Hl].
  rewrite Q.max_r; [exact Hs|]. rewrite Hs. apply Qle_bool_imp_le. reflexivity.
Qed.

(** Normalization keeps the genera in order and makes every abundance non-negative. *)
Theorem normalize_keys_nonneg (abund : Abund) :
  map fst (normalize abund) = map fst abund /\
  Forall (fun gv => 0 <= snd gv) (normalize abund).
Proof. exact (normalize_keys_nonneg_aux abund). Qed.

(** Normalizing an already normalized non-negative sample changes no value. *)
Theorem normalize_idempotent (abund : Abund) :
  Forall (fun gv => 0 <= snd gv) abund ->
  1e-12 <= sum_vals (map snd abund) ->
  Forall2 (fun a b => fst a = fst b /\ snd a == snd b) (normalize (normalize abund)) (normalize abund).
Proof.
  intros Hpos Hsum. apply normalize_unit; [apply normalize_keys_nonneg_aux|].
  unfold normalize. rewrite sum_vals_scaled; [| |exact Hpos].
  - rewrite (Q.max_r 1e-12 _) by exact Hsum. field.
    intro C. assert (0 < 1e-12) by reflexivity. lra.
  - apply normalize_div_pos.
Qed.

Lemma coverage_counts_no_lod (gp : GP) (l : Abund) :
  (forall g, gp_get gp g gp_lod 0.0 <= 0) -> Forall (fun gv => 0 <= snd gv) l ->
  coverage_counts gp l =
    (length (filter (Qltb 0) (map snd l)), length (filter (Qltb 0) (map snd l))).
Proof.
  intros Hlod Hl. induction Hl as [|[g v] l Hv Hl IH]; [reflexivity|].
  cbn [coverage_counts map filter]. rewrite IH. cbn [snd] in Hv |- *.
  assert (Hg := Hlod g).
  destruct (Qltb 0 (gp_get gp g gp_lod 0.0)) eqn:E1; [apply Qltb_true in E1; lra|].
  rewrite orb_false_r.
  destruct (Qltb 0 v) eqn:E2; [|reflexivity].
  assert (Em : Qle_bool (Qmax (gp_get gp g gp_lod 0.0) 0.0) v = true).
  { apply Qle_bool_iff.
    destruct (Q.max_spec_le (gp_get gp g gp_lod 0.0) 0.0) as [[? E]|[? E]]; rewrite E; lra. }
  rewrite Em. reflexivity.
Qed.

Lemma normalize_Exists_pos (abund : Abund) :
  Exists (fun gv => 0 < snd gv) abund -> Exists (fun gv => 0 < snd gv) (normalize abund).
Proof.
  unfold normalize. cbv zeta. assert (Hd := normalize_div_pos abund). revert Hd.
  generalize (Qmax 1e-12 (sum_vals (map snd abund))) as d. intros d Hd H.
  induction H as [[g v] l Hv|[g v] l H IH]; cbn [map].
  - apply Exists_cons_hd. cbn [snd] in *. apply div_pos; [|exact Hd].
    rewrite Q.max_l by lra. exact Hv.
  - apply Exists_cons_tl. exact IH.
Qed.

Lemma filter_pos_length (l : list Q) :
  Exists (fun v => 0 < v) l -> (1 <= length (filter (Qltb 0) l))%nat.
Proof.
  induction 1 as [v l Hv|v l H IH]; cbn [filter].
  - rewrite (proj2 (Qltb_true 0 v) Hv). cbn [length]. lia.
  - destruct (Qltb 0 v); cbn [length]; lia.
Qed.

(** With no positive detection limit in the cohort table, a sample with some positive abundance has coverage 1 and is never sent to review. *)
Theorem no_lod_full_coverage (erf log exp : Q -> Q) (abund : Abund)
    (ref_stats : RefStats) (weights_df : WeightsDF) (gp : GP) (r : AnalysisResult) :
  (forall g, gp_get gp g gp_lod 0.0 <= 0) ->
  Exists (fun gv => 0 < snd gv) abund ->
  analyze_sample erf log exp abund ref_stats weights_df gp = Some r ->
  coverage_lod (key_metrics r) == 1 /\
  category_label r <> "Needs review" /\ category_color r <> "grey".
Proof.
  intros Hlod Hex H.
  assert (Hc : coverage_of gp (normalize abund) == 1).
  { unfold coverage_of.
    rewrite (coverage_counts_no_lod gp _ Hlod (proj2 (normalize_keys_nonneg_aux abund))).
    assert (Hk : (1 <= length (filter (Qltb 0) (map snd (normalize abund))))%nat).
    { apply filter_pos_length. apply Exists_map. exact (normalize_Exists_pos abund Hex). }
    revert Hk. generalize (length (filter (Qltb 0) (map snd (normalize abund)))). intros k Hk.
    rewrite Nat.max_r by exact Hk. field.
    change 0 with (inject_Z 0). rewrite inject_Z_injective. lia. }
  assert (Hl : Qltb (coverage_of gp (normalize abund)) 0.4 = false)
    by (apply Qltb_false; rewrite Hc; apply Qle_bool_imp_le; reflexivity).
  open_analysis H; cbn [key_metrics coverage_lod category_label category_color];
    try congruence;
    (split; [apply (round_to_Z 3 _ 1); exact Hc|]);
    unfold category_of, color_of;
    split; repeat match goal with |- context [if ?b then _ else _] => destruct b end;
    discriminate.
Qed.

Lemma normalize_all_zero (abund : Abund) :
  Forall (fun gv => snd gv <= 0) abund -> Forall (fun gv => snd gv == 0) (normalize abund).
Proof.
  unfold normalize. cbv zeta. assert (Hd := normalize_div_pos abund). revert Hd.
  generalize (Qmax 1e-12 (sum_vals (map snd abund))) as d. intros d Hd H.
  induction H as [|[g v] l Hv Hl IH]; cbn [map]; constructor; [|exact IH].
  cbn [snd] in *. rewrite Q.max_r by exact Hv. field. lra.
Qed.

Lemma coverage_counts_zero (gp : GP) (l : Abund) :
  Forall (fun gv => snd gv == 0) l -> fst (coverage_counts gp l) = 0%nat.
Proof.
  induction 1 as [|[g v] l Hv Hl IH]; [reflexivity|]. cbn [coverage_counts].
  destruct (coverage_counts gp l) as [a t]. cbn [fst snd] in *. subst a. cbv beta iota.
  destruct (Qltb 0 v || Qltb 0 (gp_get gp g gp_lod 0.0)) eqn:E; [|reflexivity].
  destruct (Qle_bool (Qmax (gp_get gp g gp_lod 0.0) 0.0) v) eqn:F; [|reflexivity].
  apply orb_true_iff in E. apply Qle_bool_iff in F.
  destruct E as [E|E]; apply Qltb_true in E; [lra|].
  assert (Qmax (gp_get gp g gp_lod 0.0) 0.0 >= gp_get gp g gp_lod 0.0) by apply Q.le_max_l. lra.
Qed.

Lemma shannon_zero (log : Q -> Q) (l : Abund) :
  Forall (fun gv => snd gv == 0) l -> shannon_of log l = 0.
Proof.
  intros H. unfold shannon_of.
  assert (E : filter (Qltb 0) (map snd l) = []).
  { induction H as [|[g v] l Hv Hl IH]; [reflexivity|]. cbn [map filter].
    rewrite IH. cbn [snd] in Hv |- *. destruct (Qltb 0 v) eqn:F; [|reflexivity].
    apply Qltb_true in F. lra. }
  rewrite E. reflexivity.
Qed.

(** A sample with no positive abundance has coverage 0 and Shannon 0, is labelled Needs review in grey, and its trace ends with the abstention at coverage 0. *)
Theorem empty_sample_abstains (erf log exp : Q -> Q) (abund : Abund)
    (ref_stats : RefStats) (weights_df : WeightsDF) (gp : GP) (r : AnalysisResult) :
  Forall (fun gv => snd gv <= 0) abund ->
  analyze_sample erf log exp abund ref_stats weights_df gp = Some r ->
  coverage_lod (key_metrics r) == 0 /\ shannon_diversity (key_metrics r) == 0 /\
  category_label r = "Needs review" /\ category_color r = "grey" /\
  exists c trace, c == 0 /\ decision_trace r = (trace ++ [TrAbstain c])%list.
Proof.
  intros Hz H. apply normalize_all_zero in Hz.
  assert (Hc : coverage_of gp (normalize abund) == 0).
  { unfold coverage_of. assert (E := coverage_counts_zero gp _ Hz).
    destruct (coverage_counts gp (normalize abund)) as [a t]. cbn [fst] in E. subst a.
    unfold Qdiv. rewrite Qmult_0_l. reflexivity. }
  assert (Hl : Qltb (coverage_of gp (normalize abund)) 0.4 = true)
    by (apply Qltb_true; rewrite Hc; reflexivity).
  assert (Hs := shannon_zero log _ Hz).
  open_analysis H; try congruence.
  all: cbn [key_metrics coverage_lod shannon_diversity category_label category_color decision_trace].
  all: rewrite ?Hs.
  all: split; [apply (round_to_Z 3 _ 0); exact Hc|].
  all: split; [reflexivity|].
  all: split; [reflexivity|].
  all: split; [reflexivity|].
  all: exists (coverage_of gp (normalize abund)); eexists; split; [exact Hc|].
  all: rewrite ?app_assoc; reflexivity.
Qed.

(** ** Errors, categories and panels *)

Lemma robust_percentile_None (erf : Q -> Q) (x : Q) (st : MetricStats) :
  robust_percentile erf x st = None <-> 0 < mad_of st /\ ms_median st = None.
Proof.
  unfold robust_percentile, bind_opt.
  destruct (Qltb 0 (mad_of st)) eqn:E.
  - apply Qltb_true in E. destruct (ms_median st); split; intros H; try discriminate;
      try tauto. destruct H; discriminate.
  - apply Qltb_false in E. split; intros H; [discriminate|lra].
Qed.

Lemma robust_percentile_Some (erf : Q -> Q) (x : Q) (st : MetricStats) :
  robust_percentile erf x st <> None <-> (0 < mad_of st -> ms_median st <> None).
Proof.
  rewrite robust_percentile_None. split.
  - intros H Hm Hmed. apply H. split; assumption.
  - intros H [Hm Hmed]. exact (H Hm Hmed).
Qed.

Lemma analyze_sample_defined_iff (erf log exp : Q -> Q) (abund : Abund)
    (ref_stats : RefStats) (weights_df : WeightsDF) (gp : GP) :
  analyze_sample erf log exp abund ref_stats weights_df gp <> None <->
  (forall k, In k ["shannon"; "bp_log_ratio"; "health_balance"; "scfa"; "pathogen_load"] ->
     exists st, assoc k ref_stats = Some st /\ (0 < mad_of st -> ms_median st <> None)) /\
  (exists st, assoc "shannon" ref_stats = Some st /\ ms_p25 st <> None).
Proof.
  split.
  - intros H. unfold analyze_sample in H. cbv zeta delta [bind_opt] in H.
    repeat (match type of H with
            | context [match ?x with _ => _ end] => destruct x eqn:?
            end; cbv beta iota in H; try congruence).
    all: split; [intros k Hk; cbn [In] in Hk;
      repeat destruct Hk as [<-|Hk]; try contradiction;
        (eexists; split; [eassumption|]);
        match goal with
        | E : robust_percentile ?e ?x ?st = Some _ |- 0 < mad_of ?st -> _ =>
            apply (proj1 (robust_percentile_Some e x st)); congruence
        end
    | eexists; split; [reflexivity|congruence]].
  - intros [Hk [s1 [E1 P1]]].
    destruct (Hk "shannon") as [s1' [E1' U1]]; [simpl; tauto|].
    destruct (Hk "bp_log_ratio") as [s2 [E2 U2]]; [simpl; tauto|].
    destruct (Hk "health_balance") as [s3 [E3 U3]]; [simpl; tauto|].
    destruct (Hk "scfa") as [s4 [E4 U4]]; [simpl; tauto|].
    destruct (Hk "pathogen_load") as [s5 [E5 U5]]; [simpl; tauto|].
    rewrite E1 in E1'. apply Some_inj in E1'. subst s1'.
    unfold analyze_sample. cbv zeta delta [bind_opt].
    rewrite E1, E2, E3, E4, E5.
    repeat match goal with
    | |- context [match robust_percentile ?e ?x ?st with _ => _ end] =>
        let E := fresh "E" in
        destruct (robust_percentile e x st) eqn:E;
        [|apply robust_percentile_None in E; destruct E as [Em Emed];
          exfalso; first [exact (U1 Em Emed) | exact (U2 Em Emed) | exact (U3 Em Emed)
                        | exact (U4 Em Emed) | exact (U5 Em Emed)]]
    end.
    destruct (ms_p25 s1); [|contradiction].
    destruct (risk_panels _ _ _ _ _). cbv beta iota.
    destruct (match assoc OSCC _ with Some _ => true | None => false end); discriminate.
Qed.

(** For a weights table given by its [HealthWeight] column (as [load_weights_df]
    always returns), [analyze_sample] returns a result exactly when the five
    metric entries of the reference statistics exist, each with a median
    wherever its spread is positive, and the Shannon entry has a [p25]. *)
Theorem analyze_sample_key_errors (erf log exp : Q -> Q) (abund : Abund)
    (ref_stats : RefStats) (weights_df : WeightsDF) (gp : GP) :
  analyze_sample erf log exp abund ref_stats weights_df gp <> None <->
  (forall k, In k ["shannon"; "bp_log_ratio"; "health_balance"; "scfa"; "pathogen_load"] ->
     exists st, assoc k ref_stats = Some st /\ (0 < mad_of st -> ms_median st <> None)) /\
  (exists st, assoc "shannon" ref_stats = Some st /\ ms_p25 st <> None).
Proof. apply analyze_sample_defined_iff. Qed.

Lemma Qle_bool_eq (a b c d : Q) : (a <= b <-> c <= d) -> Qle_bool a b = Qle_bool c d.
Proof.
  intros H. destruct (Qle_bool c d) eqn:E.
  - apply Qle_bool_iff, H, Qle_bool_iff, E.
  - apply not_true_iff_false. intros C. apply Qle_bool_iff, H, Qle_bool_iff in C. congruence.
Qed.

Lemma chi_of_pieces (c : Q) :
  chi_of c == (if Qle_bool c 35 then -4
               else if Qle_bool c 50 then (c - 35) * (4 # 15) - 4
               else if Qle_bool c 70 then (c - 50) * (1 # 5)
               else 4).
Proof.
  unfold chi_of. rewrite clip_id; [apply interp_knots|].
  rewrite interp_knots.
  destruct (Qle_bool c 35) eqn:E1; destruct (Qle_bool c 50) eqn:E2;
    destruct (Qle_bool c 70) eqn:E3; qbool; lra.
Qed.

(** Outside abstention, category and colour are fixed by composite thresholds 65, 55, 46.25 and 38.75. *)
Theorem category_thresholds (c : Q) :
  let label := category_of false (chi_of c) in
  (label, color_of false label) =
  (if Qle_bool 65 c then ("Excellent", "green")
   else if Qle_bool 55 c then ("Good", "green")
   else if Qle_bool (185 # 4) c then ("Average", "yellow")
   else if Qle_bool (155 # 4) c then ("Below Average", "red")
   else ("Non-Ideal", "red")).
Proof.
  intros label. unfold label, category_of. assert (Hc := chi_of_pieces c).
  assert (Hp : forall t u, (forall x, x == chi_of c -> (t <= x <-> u <= c)) ->
                 Qle_bool t (chi_of c) = Qle_bool u c).
  { intros t u Ht. apply Qle_bool_eq. apply Ht. reflexivity. }
  rewrite (Hp 3 65), (Hp 1 55), (Hp (-1) (185 # 4)), (Hp (-3) (155 # 4)).
  1: destruct (Qle_bool 65 c); [reflexivity|]; destruct (Qle_bool 55 c); [reflexivity|];
     destruct (Qle_bool (185 # 4) c); [reflexivity|];
     destruct (Qle_bool (155 # 4) c); reflexivity.
  all: intros x Hx; rewrite Hx, Hc;
    destruct (Qle_bool c 35) eqn:E1; destruct (Qle_bool c 50) eqn:E2;
    destruct (Qle_bool c 70) eqn:E3; qbool; split; intros; lra.
Qed.

Lemma risk_panels_no_dominance (abund : Abund) (gp : GP) (shannon sh_p25 hb : Q) :
  ~ In TrDominance (snd (risk_panels abund gp shannon sh_p25 hb)).
Proof.
  unfold risk_panels. cbv beta zeta.
  repeat match goal with |- context [if ?b then _ else _] => is_bool b; destruct b end;
  cbn; intuition discriminate.
Qed.

(** The dominance step is in the trace exactly when the OSCC panel fired. *)
Theorem dominance_iff_oscc (erf log exp : Q -> Q) (abund : Abund)
    (ref_stats : RefStats) (weights_df : WeightsDF) (gp : GP) (r : AnalysisResult) :
  analyze_sample erf log exp abund ref_stats weights_df gp = Some r ->
  (In TrDominance (decision_trace r) <-> assoc OSCC (disease_risks r) <> None).
Proof.
  intros H. open_analysis H; cbn [decision_trace disease_risks];
  match goal with
  | E : risk_panels ?a ?g ?s ?p ?h = (_, ?ds) |- _ =>
      assert (Hn := risk_panels_no_dominance a g s p h); rewrite E in Hn; cbn [snd] in Hn
  end;
  rewrite ?in_app_iff; cbn [In];
  match goal with E : assoc OSCC _ = _ |- _ => rewrite E end;
  split; intros; try congruence; intuition discriminate.
Qed.

Lemma panels_fired (abund : Abund) (gp : GP) (shannon sh_p25 hb : Q) :
  let rs := fst (risk_panels abund gp shannon sh_p25 hb) in
  let fuso := abund_get abund "Fusobacterium" in
  let f_p975 := gp_get gp "Fusobacterium" gp_p97_5 0.2 in
  fired (assoc OSCC rs) =
    (Qle_bool (Qmax (gp_get gp "Fusobacterium" gp_p99 0.25) 0.20) fuso ||
     (Qle_bool f_p975 fuso &&
      (Nat.leb 1 (count_hits gp abund FUSO_SYNERGY) || Qle_bool shannon sh_p25 || Qltb hb 40.0))) /\
  fired (assoc HALI rs) =
    (p90_hit gp abund "Solobacterium" || (Qle_bool f_p975 fuso && Qle_bool shannon sh_p25)) /\
  assoc PERIO rs =
    (if Nat.leb 2 (count_hits gp abund RED) then
       Some {| level := if Nat.eqb (count_hits gp abund RED) 2 then "Moderate" else "High";
               marker := "Porphyromonas/Tannerella/Treponema";
               panel_score := round_to 4 (sum_vals (map (abund_get abund) RED));
               threshold := 0.02 |}
     else None).
Proof.
  intros rs fuso f_p975. unfold rs, fuso, f_p975, risk_panels. cbv beta zeta.
  repeat match goal with |- context [if ?b then _ else _] => is_bool b; destruct b end;
  (split; [|split]); reflexivity.
Qed.

Lemma fired_true {A : Type} (o : option A) : o <> None <-> fired o = true.
Proof. destruct o; cbn; split; congruence. Qed.

(** Raising Fusobacterium never switches off the OSCC or halitosis panel and leaves the periodontitis panel unchanged. *)
Theorem fuso_raise_monotone (abund : Abund) (gp : GP) (shannon sh_p25 hb f f' : Q) :
  f <= f' ->
  let rs := fst (risk_panels (("Fusobacterium", f) :: abund) gp shannon sh_p25 hb) in
  let rs' := fst (risk_panels (("Fusobacterium", f') :: abund) gp shannon sh_p25 hb) in
  (assoc OSCC rs <> None -> assoc OSCC rs' <> None) /\
  (assoc HALI rs <> None -> assoc HALI rs' <> None) /\
  assoc PERIO rs = assoc PERIO rs'.
Proof.
  intros Hf rs rs'. unfold rs, rs'.
  destruct (panels_fired (("Fusobacterium", f) :: abund) gp shannon sh_p25 hb) as [O1 [H1 P1]].
  destruct (panels_fired (("Fusobacterium", f') :: abund) gp shannon sh_p25 hb) as [O2 [H2 P2]].
  rewrite !fired_true, O1, O2, H1, H2, P1, P2.
  change (abund_get (("Fusobacterium", f) :: abund) "Fusobacterium") with f in *.
  change (abund_get (("Fusobacterium", f') :: abund) "Fusobacterium") with f' in *.
  change (count_hits gp (("Fusobacterium", f) :: abund) FUSO_SYNERGY) with (count_hits gp abund FUSO_SYNERGY).
  change (count_hits gp (("Fusobacterium", f') :: abund) FUSO_SYNERGY) with (count_hits gp abund FUSO_SYNERGY).
  change (p90_hit gp (("Fusobacterium", f) :: abund) "Solobacterium") with (p90_hit gp abund "Solobacterium").
  change (p90_hit gp (("Fusobacterium", f') :: abund) "Solobacterium") with (p90_hit gp abund "Solobacterium").
  change (count_hits gp (("Fusobacterium", f) :: abund) RED) with (count_hits gp abund RED).
  change (count_hits gp (("Fusobacterium", f') :: abund) RED) with (count_hits gp abund RED).
  change (map (abund_get (("Fusobacterium", f) :: abund)) RED) with (map (abund_get abund) RED).
  change (map (abund_get (("Fusobacterium", f') :: abund)) RED) with (map (abund_get abund) RED).
  assert (Hm : forall t, Qle_bool t f = true -> Qle_bool t f' = true).
  { intros t Ht. apply Qle_bool_iff in Ht. apply Qle_bool_iff. lra. }
  generalize (Hm (Qmax (gp_get gp "Fusobacterium" gp_p99 0.25) 0.20))
             (Hm (gp_get gp "Fusobacterium" gp_p97_5 0.2)).
  clear.
  repeat match goal with |- context [Qle_bool ?a ?b] => destruct (Qle_bool a b) end;
  repeat match goal with |- context [p90_hit ?a ?b ?c] => destruct (p90_hit a b c) end;
  repeat match goal with |- context [Nat.leb ?a ?b] => destruct (Nat.leb a b) end;
  destruct (Qltb hb 40.0); cbn; intuition congruence.
Qed.

(** ** The feature-table loader *)

Lemma string_compare_OT (s t : string) : String.compare s t = String_as_OT.compare s t.
Proof. reflexivity. Qed.

Lemma string_lt_trans (a b c : string) :
  String.compare a b = Lt -> String.compare b c = Lt -> String.compare a c = Lt.
Proof.
  rewrite !string_compare_OT. intros H1 H2.
  exact (StrictOrder_Transitive (R := String_as_OT.lt) a b c H1 H2).
Qed.

Lemma string_lt_irrefl (a : string) : String.compare a a <> Lt.
Proof.
  rewrite string_compare_OT. exact (StrictOrder_Irreflexive (R := String_as_OT.lt) a).
Qed.

Lemma string_compare_Gt (a b : string) : String.compare a b = Gt -> String.compare b a = Lt.
Proof. intros H. rewrite String.compare_antisym, H. reflexivity. Qed.

Lemma add_sorted_keys (g : string) (v : Q) (acc : list (string * Q)) (k : string) :
  In k (map fst (add_sorted g v acc)) <-> k = g \/ In k (map fst acc).
Proof.
  induction acc as [|[g' v'] rest IH]; cbn [add_sorted map fst In]; [(split; intros; intuition congruence)|].
  destruct (String.compare g g') eqn:E; cbn [map fst In].
  - apply String.compare_eq_iff in E. subst g'. (split; intros; intuition congruence).
  - (split; intros; intuition congruence).
  - rewrite IH. (split; intros; intuition congruence).
Qed.

Lemma add_sorted_sorted (g : string) (v : Q) (acc : list (string * Q)) :
  StronglySorted key_lt acc -> StronglySorted key_lt (add_sorted g v acc).
Proof.
  induction 1 as [|[g' v'] rest Hs IH Hf]; cbn [add_sorted]; [repeat constructor|].
  destruct (String.compare g g') eqn:E.
  - apply String.compare_eq_iff in E. subst g'. constructor; [exact Hs|exact Hf].
  - constructor; [constructor; assumption|]. constructor; [exact E|].
    eapply Forall_impl; [|exact Hf]. intros [k w] Hk. unfold key_lt in *. cbn [fst] in *.
    exact (string_lt_trans _ _ _ E Hk).
  - constructor; [exact IH|]. apply Forall_forall. intros [k w] Hk.
    assert (Hin : In k (map fst (add_sorted g v rest))) by (apply in_map_iff; exists (k, w); auto).
    apply add_sorted_keys in Hin. unfold key_lt. cbn [fst].
    destruct Hin as [->|Hin]; [exact (string_compare_Gt _ _ E)|].
    apply in_map_iff in Hin. destruct Hin as [[k' w'] [Ek Hin]]. cbn in Ek. subst k'.
    rewrite Forall_forall in Hf. exact (Hf _ Hin).
Qed.

Lemma groupby_sum_sorted_from (rows acc : list (string * Q)) :
  StronglySorted key_lt acc ->
  StronglySorted key_lt (fold_left (fun acc '(g, v) => add_sorted g v acc) rows acc).
Proof.
  revert acc. induction rows as [|[g v] rows IH]; intros acc H; cbn [fold_left]; [exact H|].
  apply IH, add_sorted_sorted, H.
Qed.

Lemma sum_add_sorted (g : string) (v : Q) (acc : list (string * Q)) :
  sum_vals (map snd (add_sorted g v acc)) == v + sum_vals (map snd acc).
Proof.
  unfold sum_vals. induction acc as [|[g' v'] rest IH]; cbn [add_sorted map snd fold_right].
  - reflexivity.
  - destruct (String.compare g g'); cbn [map snd fold_right]; [ring|ring|rewrite IH; ring].
Qed.

Lemma sum_groupby_from (rows acc : list (string * Q)) :
  sum_vals (map snd (fold_left (fun acc '(g, v) => add_sorted g v acc) rows acc)) ==
  sum_vals (map snd acc) + sum_vals (map snd rows).
Proof.
  revert acc. induction rows as [|[g v] rows IH]; intros acc; cbn [fold_left].
  - unfold sum_vals. cbn. ring.
  - rewrite IH, sum_add_sorted. unfold sum_vals. cbn [map snd fold_right]. ring.
Qed.

Lemma assoc_absent (g : string) (acc : list (string * Q)) (w : Q) :
  Forall (key_lt (g, w)) acc -> assoc g acc = None.
Proof.
  induction 1 as [|[g' v'] rest Hlt Hf IH]; [reflexivity|]. cbn [assoc].
  unfold key_lt in Hlt. cbn [fst] in Hlt.
  destruct (String.eqb g g') eqn:E; [|exact IH].
  apply String.eqb_eq in E. subst g'. exfalso. exact (string_lt_irrefl g Hlt).
Qed.

Lemma assoc_add_sorted (k g : string) (v : Q) (acc : list (string * Q)) :
  StronglySorted key_lt acc ->
  get_or (assoc k (add_sorted g v acc)) 0 ==
    get_or (assoc k acc) 0 + (if String.eqb k g then v else 0) /\
  (assoc k (add_sorted g v acc) = None <-> assoc k acc = None /\ k <> g).
Proof.
  induction 1 as [|[g' v'] rest Hs IH Hf]; cbn [add_sorted assoc get_or].
  - destruct (String.eqb k g) eqn:E; cbn [get_or].
    + apply String.eqb_eq in E. split; [ring|split; [discriminate|tauto]].
    + apply String.eqb_neq in E. split; [ring|tauto].
  - destruct (String.compare g g') eqn:C.
    + apply String.compare_eq_iff in C. subst g'. cbn [assoc].
      destruct (String.eqb k g) eqn:E; cbn [get_or].
      * apply String.eqb_eq in E. split; [ring|split; [discriminate|tauto]].
      * apply String.eqb_neq in E. split; [ring|tauto].
    + cbn [assoc]. destruct (String.eqb k g) eqn:E.
      * apply String.eqb_eq in E. subst k.
        assert (Hk : String.eqb g g' = false).
        { apply String.eqb_neq. intros ->. exact (string_lt_irrefl _ C). }
        rewrite Hk. rewrite (assoc_absent g rest v').
        -- cbn [get_or]. split; [ring|split; [discriminate|tauto]].
        -- eapply Forall_impl; [|exact Hf]. intros [k w] Hkw. unfold key_lt in *. cbn in *.
           exact (string_lt_trans _ _ _ C Hkw).
      * apply String.eqb_neq in E. destruct (String.eqb k g'); cbn [get_or]; split; try ring; tauto.
    + cbn [assoc]. destruct (String.eqb k g') eqn:E'.
      * apply String.eqb_eq in E'. subst g'.
        assert (Hk : String.eqb k g = false).
        { apply String.eqb_neq. intros Ek. subst k.
          exact (string_lt_irrefl _ (string_compare_Gt _ _ C)). }
        rewrite Hk. cbn [get_or]. split; [ring|split; [discriminate|intros [? ?]; discriminate]].
      * exact IH.
Qed.

Lemma assoc_groupby_from (k : string) (rows acc : list (string * Q)) :
  StronglySorted key_lt acc ->
  get_or (assoc k (fold_left (fun acc '(g, v) => add_sorted g v acc) rows acc)) 0 ==
    get_or (assoc k acc) 0 + sum_vals (map snd (filter (fun r => String.eqb k (fst r)) rows)) /\
  (assoc k (fold_left (fun acc '(g, v) => add_sorted g v acc) rows acc) = None <->
   assoc k acc = None /\ forall r, In r rows -> fst r <> k).
Proof.
  revert acc. induction rows as [|[g v] rows IH]; intros acc Hs; cbn [fold_left filter].
  - split; [unfold sum_vals; cbn; ring|]. cbn [In]. intuition.
  - destruct (IH (add_sorted g v acc) (add_sorted_sorted g v acc Hs)) as [IH1 IH2].
    destruct (assoc_add_sorted k g v acc Hs) as [A1 A2].
    split.
    + rewrite IH1, A1. cbn [fst]. destruct (String.eqb k g); unfold sum_vals; cbn [map snd fold_right]; ring.
    + rewrite IH2, A2. cbn [In fst]. split.
      * intros [[Ha Hk] Hr]. split; [exact Ha|]. intros r [<-|Hin]; [cbn; congruence|exact (Hr r Hin)].
      * intros [Ha Hr]. split; [split; [exact Ha|]|].
        -- intros Ek. subst g. exact (Hr (k, v) (or_introl eq_refl) eq_refl).
        -- intros r Hin. exact (Hr r (or_intror Hin)).
Qed.

Lemma groupby_Forall (P : Q -> Prop) (HP : forall a b, P a -> P b -> P (a + b))
    (rows acc : list (string * Q)) :
  Forall (fun r => P (snd r)) acc -> Forall (fun r => P (snd r)) rows ->
  Forall (fun r => P (snd r)) (fold_left (fun acc '(g, v) => add_sorted g v acc) rows acc).
Proof.
  revert acc. induction rows as [|[g v] rows IH]; intros acc Ha Hr; cbn [fold_left]; [exact Ha|].
  inversion Hr as [|? ? Hv Hrows]; subst. apply IH; [|exact Hrows].
  clear IH Hr Hrows. induction Ha as [|[g' v'] acc Hv' Ha IHa]; cbn [add_sorted].
  - constructor; [exact Hv|constructor].
  - destruct (String.compare g g'); constructor; cbn [snd] in *; try assumption.
    + apply HP; assumption.
    + constructor; assumption.
Qed.

Lemma rows_filter_sum (asv_map : list (string * string)) (g : string) (l : list (string * Q)) :
  sum_vals (map snd (filter (fun r => String.eqb g (fst r))
                      (map (fun '(asv, v) => (genus_of asv_map asv, v)) l))) =
  sum_vals (map snd (filter (fun '(asv, _) => String.eqb g (genus_of asv_map asv)) l)).
Proof.
  induction l as [|[a v] l IH]; [reflexivity|]. cbn [map filter fst].
  destruct (String.eqb g (genus_of asv_map a)); [|exact IH].
  unfold sum_vals in *. cbn [map snd fold_right]. rewrite IH. reflexivity.
Qed.

Lemma rel_column_keys (col : list (string * Q)) : map fst (rel_column col) = map fst col.
Proof.
  unfold rel_column. generalize (sum_vals (map snd col)). intros s.
  induction col as [|[a v] col IH]; cbn; [reflexivity|]. rewrite IH. reflexivity.
Qed.

Lemma rel_column_sum (col : list (string * Q)) :
  sum_vals (map snd (rel_column col)) == sum_vals (map snd col) / sum_vals (map snd col).
Proof.
  unfold rel_column. generalize (sum_vals (map snd col)) at 1 3 as s. intros s.
  unfold sum_vals. induction col as [|[a v] col IH]; cbn [map snd fold_right].
  - unfold Qdiv. ring.
  - rewrite IH. unfold Qdiv. ring.
Qed.

(** Each genus of a loaded column holds the summed relative abundance of its ASVs, and a genus is absent exactly when no ASV of the column maps to it. *)
Theorem genus_column_lookup (asv_map : list (string * string)) (col : list (string * Q)) (g : string) :
  get_or (assoc g (genus_column asv_map col)) 0 ==
    sum_vals (map snd (filter (fun '(asv, _) => String.eqb g (genus_of asv_map asv)) (rel_column col))) /\
  (assoc g (genus_column asv_map col) = None <->
   forall asv, In asv (map fst col) -> genus_of asv_map asv <> g).
Proof.
  unfold genus_column, groupby_sum.
  destruct (assoc_groupby_from g (map (fun '(asv, v) => (genus_of asv_map asv, v)) (rel_column col)) []
              (SSorted_nil _)) as [L1 L2].
  split.
  - rewrite L1, rows_filter_sum. cbn [assoc get_or]. ring.
  - rewrite L2, <- rel_column_keys. split.
    + intros [_ H] asv Hin. apply in_map_iff in Hin. destruct Hin as [[a v] [<- Hin]].
      exact (H (genus_of asv_map a, v) (in_map (fun '(asv, v) => (genus_of asv_map asv, v)) _ _ Hin)).
    + intros H. split; [reflexivity|]. intros r Hr. apply in_map_iff in Hr.
      destruct Hr as [[a v] [<- Hin]]. cbn [fst]. apply H. apply in_map_iff. exists (a, v). auto.
Qed.

(** The genera of a loaded column are in strictly increasing order, so each appears once. *)
Theorem genus_column_sorted (asv_map : list (string * string)) (col : list (string * Q)) :
  StronglySorted (fun a b => String.compare (fst a) (fst b) = Lt) (genus_column asv_map col).
Proof.
  apply (groupby_sum_sorted_from _ [] (SSorted_nil _)).
Qed.

Lemma genus_column_sum_eq (asv_map : list (string * string)) (col : list (string * Q)) :
  sum_vals (map snd (genus_column asv_map col)) == sum_vals (map snd (rel_column col)).
Proof.
  unfold genus_column, groupby_sum. rewrite sum_groupby_from.
  replace (map snd (map (fun '(asv, v) => (genus_of asv_map asv, v)) (rel_column col)))
    with (map snd (rel_column col)).
  - unfold sum_vals. cbn. ring.
  - generalize (rel_column col). induction l as [|[a v] l IH]; cbn; [reflexivity|]. rewrite IH. reflexivity.
Qed.

(** A column with a non-zero total loads to genera summing to 1; an all-zero column loads to zeros. *)
Theorem genus_column_total (asv_map : list (string * string)) (col : list (string * Q)) :
  (~ sum_vals (map snd col) == 0 -> sum_vals (map snd (genus_column asv_map col)) == 1) /\
  (Forall (fun av => 0 <= snd av) col -> sum_vals (map snd col) == 0 ->
   Forall (fun gv => snd gv == 0) (genus_column asv_map col)).
Proof.
  split.
  - intros Hs. rewrite genus_column_sum_eq, rel_column_sum. field. exact Hs.
  - intros _ Hs. unfold genus_column, groupby_sum.
    apply (groupby_Forall (fun x => x == 0)); [intros a b Ha Hb; rewrite Ha, Hb; reflexivity|constructor|].
    unfold rel_column. revert Hs. generalize (sum_vals (map snd col)) as s. intros s Hs.
    induction col as [|[a v] col IH]; cbn [map]; constructor; [|exact IH].
    cbn [snd]. unfold Qdiv. rewrite Hs. change (/ 0) with 0. ring.
Qed.

(** ** Genera of zero abundance and the coverage gate *)

Lemma Qltb_compat (a a' b b' : Q) : a == a' -> b == b' -> Qltb a b = Qltb a' b'.
Proof.
  intros Ha Hb. destruct (Qltb a b) eqn:E; symmetry.
  - apply Qltb_true in E. apply Qltb_true. rewrite <- Ha, <- Hb. exact E.
  - apply Qltb_false in E. apply Qltb_false. rewrite <- Ha, <- Hb. exact E.
Qed.

Lemma Qle_bool_compat (a a' b b' : Q) : a == a' -> b == b' -> Qle_bool a b = Qle_bool a' b'.
Proof.
  intros Ha Hb. destruct (Qle_bool a b) eqn:E; symmetry.
  - apply Qle_bool_iff in E. apply Qle_bool_iff. rewrite <- Ha, <- Hb. exact E.
  - apply Qle_bool_false in E. destruct (Qle_bool a' b') eqn:F; [|reflexivity].
    apply Qle_bool_iff in F. rewrite <- Ha, <- Hb in F. lra.
Qed.

Lemma coverage_counts_compat (gp : GP) (l l' : Abund) :
  Forall2 (fun a b => fst a = fst b /\ snd a == snd b) l l' ->
  coverage_counts gp l = coverage_counts gp l'.
Proof.
  induction 1 as [|[g v] [g' v'] l l' [Hg Hv] _ IH]; [reflexivity|].
  cbn [fst snd] in Hg, Hv. subst g'. cbn [coverage_counts]. rewrite IH.
  rewrite (Qltb_compat 0 0 v v') by (reflexivity || exact Hv).
  rewrite (Qle_bool_compat (Qmax (gp_get gp g gp_lod 0.0) 0.0) (Qmax (gp_get gp g gp_lod 0.0) 0.0) v v')
    by (reflexivity || exact Hv).
  reflexivity.
Qed.

Lemma normalize_cons_zero (g : string) (abund : Abund) :
  Forall2 (fun a b => fst a = fst b /\ snd a == snd b)
    (normalize ((g, 0) :: abund)) ((g, 0) :: normalize abund).
Proof.
  unfold normalize. cbv zeta.
  assert (E : Qmax 1e-12 (sum_vals (map snd ((g, 0) :: abund))) ==
              Qmax 1e-12 (sum_vals (map snd abund))).
  { cbn [map snd sum_vals]. apply Q.max_compat; [reflexivity|apply Qplus_0_l]. }
  revert E. generalize (Qmax 1e-12 (sum_vals (map snd ((g, 0) :: abund)))) as d1.
  generalize (Qmax 1e-12 (sum_vals (map snd abund))) as d2. intros d2 d1 E.
  cbn [map]. constructor.
  - cbn [fst snd]. split; [reflexivity|]. change (Qmax 0 0) with 0. unfold Qdiv. ring.
  - induction abund as [|[h w] rest IH]; cbn [map]; [constructor|].
    constructor; [|exact IH]. cbn [fst snd]. split; [reflexivity|]. rewrite E. reflexivity.
Qed.

Lemma div_anti (a x y : Q) : 0 <= a -> 0 < y -> y <= x -> a / x <= a / y.
Proof.
  intros Ha Hy Hx. apply Qle_shift_div_r; [lra|].
  setoid_replace (a / y * x) with ((a * x) / y) by (field; lra).
  apply Qle_shift_div_l; [exact Hy|]. rewrite !(Qmult_comm a). apply Qmult_le_compat_r; assumption.
Qed.

Lemma coverage_zero_genus (gp : GP) (g : string) (abund : Abund) :
  coverage_of gp (normalize ((g, 0) :: abund)) <= coverage_of gp (normalize abund).
Proof.
  unfold coverage_of. rewrite (coverage_counts_compat gp _ _ (normalize_cons_zero g abund)).
  cbn [coverage_counts]. destruct (coverage_counts gp (normalize abund)) as [a t].
  change (Qltb 0 0) with false. cbn [orb].
  assert (Hm : forall u v : nat, (u <= v)%nat ->
    inject_Z (Z.of_nat a) / inject_Z (Z.of_nat (Nat.max 1 v)) <=
    inject_Z (Z.of_nat a) / inject_Z (Z.of_nat (Nat.max 1 u))).
  { intros u v Huv. apply div_anti.
    - change 0 with (inject_Z 0). rewrite <- Zle_Qle. lia.
    - change 0 with (inject_Z 0). rewrite <- Zlt_Qlt. lia.
    - rewrite <- Zle_Qle. lia. }
  destruct (Qltb 0 (gp_get gp g gp_lod 0.0)) eqn:L; [|apply Qle_refl].
  apply Qltb_true in L.
  destruct (Qle_bool (Qmax (gp_get gp g gp_lod 0.0) 0.0) 0) eqn:B.
  - apply Qle_bool_iff in B. destruct (Q.max_spec_le (gp_get gp g gp_lod 0.0) 0.0) as [[H1 M]|[H1 M]];
      rewrite M in B; lra.
  - apply Hm. lia.
Qed.

Lemma category_of_review (b : bool) (chi : Q) : category_of b chi = "Needs review" <-> b = true.
Proof.
  destruct b; cbn; [tauto|].
  split; [|discriminate].
  repeat match goal with |- context [if ?c then _ else _] => destruct c end; discriminate.
Qed.

Lemma review_iff_low_coverage (erf log exp : Q -> Q) (abund : Abund)
    (ref_stats : RefStats) (weights_df : WeightsDF) (gp : GP) (r : AnalysisResult) :
  analyze_sample erf log exp abund ref_stats weights_df gp = Some r ->
  (category_label r = "Needs review" <-> Qltb (coverage_of gp (normalize abund)) 0.4 = true).
Proof.
  intros H. open_analysis H. all: cbn [category_label]; apply category_of_review.
Qed.

(** Adding a genus with zero abundance never lifts a sample out of Needs review. *)
Theorem zero_genus_keeps_review (erf log exp : Q -> Q) (abund : Abund)
    (ref_stats : RefStats) (weights_df : WeightsDF) (gp : GP) (g : string) (r r' : AnalysisResult) :
  analyze_sample erf log exp abund ref_stats weights_df gp = Some r ->
  analyze_sample erf log exp ((g, 0) :: abund) ref_stats weights_df gp = Some r' ->
  category_label r = "Needs review" -> category_label r' = "Needs review".
Proof.
  intros H H' L. apply (review_iff_low_coverage _ _ _ _ _ _ _ _ H) in L.
  apply (review_iff_low_coverage _ _ _ _ _ _ _ _ H'). apply Qltb_true in L. apply Qltb_true.
  pose proof (coverage_zero_genus gp g abund). lra.
Qed.

(** ** The batch loop of [main] *)



Lemma score_columns_in (erf log exp : Q -> Q) (ref_stats : RefStats) (weights : WeightsDF)
    (gp : GP) (cols : list (string * Abund)) (sid : string) (r : AnalysisResult) :
  In (sid, r) (fst (score_columns erf log exp ref_stats weights gp cols)) ->
  exists abund, In (sid, abund) cols /\ analyze_sample erf log exp abund ref_stats weights gp = Some r.
Proof.
  induction cols as [|[s ab] cols IH]; cbn; [tauto|].
  destruct (analyze_sample erf log exp ab ref_stats weights gp) eqn:E; [|cbn; tauto].
  destruct (score_columns erf log exp ref_stats weights gp cols) as [w f]. cbn [fst In] in *.
  intros [Eq|Hin].
  - injection Eq as <- <-. exists ab. auto.
  - destruct (IH Hin) as [a0 [Ha Ea]]. exists a0. auto.
Qed.

Lemma genus_column_nonneg (asv_map : list (string * string)) (col : list (string * Q)) :
  Forall (fun av => 0 <= snd av) col -> 0 < sum_vals (map snd col) ->
  Forall (fun gv => 0 <= snd gv) (genus_column asv_map col).
Proof.
  intros Hc Hs. unfold genus_column, groupby_sum.
  apply (groupby_Forall (fun x => 0 <= x)); [intros a b Ha Hb; lra|constructor|].
  unfold rel_column. revert Hs. generalize (sum_vals (map snd col)) as s. intros s Hs.
  induction Hc as [|[a v] col Hv Hc IH]; cbn [map]; constructor; [|exact IH].
  cbn [snd] in *. apply div_nonneg; assumption.
Qed.

(** Each written report's raw abundances are the loaded genus column of its sample, and sum to 1. *)
Theorem batch_raw_abundances (erf log exp : Q -> Q) (asv_map : list (string * string))
    (table : list (string * list (string * Q))) (ref_stats : RefStats)
    (health_weight : option WeightsDF) (gp : GP) (sid : string) (r : AnalysisResult) :
  Forall (fun sc => Forall (fun av => 0 <= snd av) (snd sc) /\ 0 < sum_vals (map snd (snd sc))) table ->
  In (sid, r) (fst (batch_main erf log exp asv_map table ref_stats health_weight gp)) ->
  exists col, In (sid, col) table /\
    Forall2 (fun a b => fst a = fst b /\ snd a == snd b) (raw_abundances r) (genus_column asv_map col) /\
    sum_vals (map snd (raw_abundances r)) == 1.
Proof.
  intros Ht Hin. unfold batch_main in Hin. cbv zeta in Hin.
  apply score_columns_in in Hin. destruct Hin as [ab [Hin H]].
  unfold load_feature_table_to_genus_abund in Hin. apply in_map_iff in Hin.
  destruct Hin as [[s col] [Eq Hin]]. injection Eq as <- <-.
  rewrite Forall_forall in Ht. destruct (Ht _ Hin) as [Hc Hs]. cbn [snd] in Hc, Hs.
  exists col. split; [exact Hin|].
  assert (Hsum : sum_vals (map snd (genus_column asv_map col)) == 1).
  { rewrite genus_column_sum_eq, rel_column_sum. field. lra. }
  assert (Hraw : raw_abundances r = normalize (genus_column asv_map col)) by (open_analysis H; reflexivity).
  rewrite Hraw. split.
  - apply normalize_unit; [apply genus_column_nonneg; assumption|exact Hsum].
  - unfold normalize. rewrite sum_vals_scaled.
    + rewrite Hsum. change (Qmax 1e-12 1) with 1. reflexivity.
    + apply normalize_div_pos.
    + apply genus_column_nonneg; assumption.
Qed.

(** ** The bar chart of [integrated_sova_health_generator.py] *)

Lemma insert_desc_perm (x : string * Q) (l : Abund) : Permutation (insert_desc x l) (x :: l).
Proof.
  induction l as [|y l IH]; cbn; [reflexivity|].
  destruct (Qle_bool (snd x) (snd y)); [|reflexivity].
  rewrite IH. apply perm_swap.
Qed.

Lemma sort_desc_perm (l : Abund) : Permutation (sort_desc l) l.
Proof.
  unfold sort_desc. rewrite <- (app_nil_r l) at 2.
  generalize (@nil (string * Q)) as acc. induction l as [|x l IH]; intros acc; cbn; [reflexivity|].
  rewrite IH, insert_desc_perm. symmetry. apply Permutation_middle.
Qed.

Lemma insert_desc_sorted (x : string * Q) (l : Abund) :
  Sorted ge_val l -> Sorted ge_val (insert_desc x l).
Proof.
  induction 1 as [|y l Hs IH Hh]; cbn; [repeat constructor|].
  destruct (Qle_bool (snd x) (snd y)) eqn:E.
  - apply Qle_bool_iff in E. constructor; [exact IH|].
    destruct l as [|z l]; cbn; [constructor; exact E|].
    inversion Hh; subst. destruct (Qle_bool (snd x) (snd z)); constructor; assumption.
  - constructor; [constructor; assumption|]. constructor. unfold ge_val.
    apply Qle_bool_false in E. lra.
Qed.

Lemma sort_desc_sorted (l : Abund) : StronglySorted ge_val (sort_desc l).
Proof.
  apply Sorted_StronglySorted; [unfold ge_val; intros a b c; lra|].
  unfold sort_desc. assert (H : Sorted ge_val (@nil (string * Q))) by constructor.
  revert H. generalize (@nil (string * Q)) as acc.
  induction l as [|x l IH]; intros acc H; cbn; [exact H|]. apply IH, insert_desc_sorted, H.
Qed.

Lemma StronglySorted_app_rel {A} (R : A -> A -> Prop) (l1 l2 : list A) :
  StronglySorted R (l1 ++ l2) -> forall x y, In x l1 -> In y l2 -> R x y.
Proof.
  induction l1 as [|a l1 IH]; cbn; [tauto|]. intros H x y [<-|Hx] Hy; inversion H; subst.
  - rewrite Forall_forall in *. apply H3, in_or_app. right. exact Hy.
  - apply IH; assumption.
Qed.

(** The bar chart keeps [min topn n] genera, rearranged from the sample, none with less abundance than a genus left out. *)
Theorem plot_top_selects (abund : Abund) (topn : nat) :
  length (plot_top abund topn) = Nat.min topn (length abund) /\
  Permutation (plot_top abund topn ++ skipn topn (sort_desc abund)) abund /\
  (forall x y, In x (plot_top abund topn) -> In y (skipn topn (sort_desc abund)) -> snd y <= snd x).
Proof.
  unfold plot_top. split; [|split].
  - rewrite length_firstn, (Permutation_length (sort_desc_perm abund)). reflexivity.
  - rewrite firstn_skipn. apply sort_desc_perm.
  - apply (StronglySorted_app_rel ge_val). rewrite firstn_skipn. apply sort_desc_sorted.
Qed.

(** ** The report API *)

Lemma string_length_app (a b : string) :
  String.length (a ++ b) = (String.length a + String.length b)%nat.
Proof. induction a as [|c a IH]; cbn; [reflexivity|]. rewrite IH. reflexivity. Qed.

Lemma list_ascii_of_string_app (a b : string) :
  list_ascii_of_string (a ++ b) = (list_ascii_of_string a ++ list_ascii_of_string b)%list.
Proof. induction a as [|c a IH]; cbn; [reflexivity|]. rewrite IH. reflexivity. Qed.

Lemma substring_app_l (a b : string) : substring 0 (String.length a) (a ++ b) = a.
Proof. induction a as [|c a IH]; cbn; [destruct b; reflexivity|]. rewrite IH. reflexivity. Qed.

Lemma substring_app_r (a b : string) (n : nat) :
  substring (String.length a) n (a ++ b) = substring 0 n b.
Proof. induction a as [|c a IH]; cbn; [reflexivity|]. exact IH. Qed.

Lemma substring_full (s : string) : substring 0 (String.length s) s = s.
Proof. induction s as [|c s IH]; cbn; [reflexivity|]. rewrite IH. reflexivity. Qed.

Lemma substring_split (s : string) (n : nat) :
  (n <= String.length s)%nat ->
  (substring 0 n s ++ substring n (String.length s - n) s)%string = s.
Proof.
  revert n. induction s as [|c s IH]; intros [|n] Hn; cbn in *.
  - reflexivity.
  - lia.
  - rewrite substring_full. reflexivity.
  - rewrite IH by lia. reflexivity.
Qed.

Lemma ends_with_nl_split (s : string) :
  ends_with nl s = true -> s = (substring 0 (String.length s - 1) s ++ nl)%string.
Proof.
  unfold ends_with. intros H. apply andb_prop in H as [H1 H2].
  apply Nat.leb_le in H1. apply String.eqb_eq in H2. cbn [String.length nl] in H1, H2.
  rewrite <- H2. pose proof (substring_split s (String.length s - 1) ltac:(lia)) as E.
  replace (String.length s - (String.length s - 1))%nat with 1%nat in E by lia.
  symmetry. exact E.
Qed.

Lemma ends_with_nl_app (s : string) : ends_with nl (s ++ nl) = true.
Proof.
  unfold ends_with. rewrite string_length_app. cbn [String.length nl].
  replace (String.length s + 1 - 1)%nat with (String.length s) by lia.
  rewrite substring_app_r. apply andb_true_intro. split; [apply Nat.leb_le; lia|reflexivity].
Qed.

Lemma all_safe_app (a b : string) : all_safe (a ++ b) = all_safe a && all_safe b.
Proof. induction a as [|c a IH]; cbn; [reflexivity|]. rewrite IH. apply andb_assoc. Qed.

Lemma all_safe_no_nl (s : string) : all_safe s = true -> ends_with nl s = false.
Proof.
  intros H. destruct (ends_with nl s) eqn:E; [|reflexivity].
  apply ends_with_nl_split in E. rewrite E, all_safe_app in H.
  apply andb_prop in H as [_ H]. discriminate H.
Qed.

Lemma SAFE_match_app_nl (s : string) :
  SAFE_match (s ++ nl) = negb (String.eqb s "") && all_safe s.
Proof.
  unfold SAFE_match. rewrite ends_with_nl_app, string_length_app. cbn [String.length nl].
  replace (String.length s + 1 - 1)%nat with (String.length s) by lia.
  rewrite substring_app_l. reflexivity.
Qed.

Lemma SAFE_match_true (s : string) :
  SAFE_match s = true ->
  exists body, (s = body \/ s = (body ++ nl)%string) /\ body <> "" /\ all_safe body = true.
Proof.
  unfold SAFE_match. destruct (ends_with nl s) eqn:E; intros H;
    apply andb_prop in H as [H1 H2]; apply negb_true_iff, String.eqb_neq in H1.
  - exists (substring 0 (String.length s - 1) s). split; [right; apply ends_with_nl_split, E|].
    split; assumption.
  - exists s. split; [left; reflexivity|]. split; assumption.
Qed.

(** [SAFE] accepts a name followed by a newline exactly when it accepts the name and the name does not itself end in a newline. *)
Theorem SAFE_trailing_newline (s : string) :
  SAFE_match (s ++ nl) = true <-> SAFE_match s = true /\ ends_with nl s = false.
Proof.
  rewrite SAFE_match_app_nl. unfold SAFE_match. split.
  - intros H. pose proof H as H'. apply andb_prop in H' as [_ H2].
    rewrite (all_safe_no_nl s H2). split; [exact H|reflexivity].
  - intros [H E]. rewrite E in H. exact H.
Qed.

Lemma prefix_slash (c : ascii) (b : string) :
  String.prefix "/" (String c b) = if ascii_dec "/" c then String.prefix "" b else false.
Proof. reflexivity. Qed.

Lemma all_safe_no_slash (s : string) :
  all_safe s = true -> ~ In "/"%char (list_ascii_of_string s).
Proof.
  induction s as [|c s IH]; cbn; [tauto|]. intros H. apply andb_prop in H as [Hc Hs].
  intros [E|Hin]; [subst c; discriminate Hc|exact (IH Hs Hin)].
Qed.

(** A served file is the name joined under [professional_reports]: the name is non-empty, contains no slash and the path exists. *)
Theorem download_in_reports_dir (exists_path : string -> bool) (filename p : string) :
  download exists_path filename = FileResponse p ->
  p = (REPORTS_DIR ++ "/" ++ filename)%string /\ exists_path p = true /\
  filename <> "" /\ ~ In "/"%char (list_ascii_of_string filename).
Proof.
  unfold download. destruct (SAFE_match filename) eqn:S; cbn [negb]; [|discriminate].
  destruct (SAFE_match_true filename S) as [body [Hf [Hne Hs]]].
  assert (Hp : path_join REPORTS_DIR filename = (REPORTS_DIR ++ "/" ++ filename)%string).
  { assert (Hh : exists c b, filename = String c b /\ safe_char c = true).
    { destruct body as [|c b]; [congruence|]. cbn in Hs. apply andb_prop in Hs as [Hc _].
      exists c. destruct Hf as [->| ->]; [exists b|exists (b ++ nl)%string]; split; auto. }
    destruct Hh as [c [b [-> Hc]]]. unfold path_join. rewrite prefix_slash.
    destruct (ascii_dec "/" c) as [<-|]; [discriminate Hc|reflexivity]. }
  rewrite Hp. destruct (exists_path (REPORTS_DIR ++ "/" ++ filename)%string) eqn:X;
    cbn [negb]; intros H; [|discriminate H]. injection H as <-.
  split; [reflexivity|]. split; [exact X|].
  destruct Hf as [->| ->].
  - split; [exact Hne|apply all_safe_no_slash, Hs].
  - split; [destruct body; discriminate|].
    rewrite list_ascii_of_string_app. intros Hin. apply in_app_or in Hin as [Hin|Hin].
    + exact (all_safe_no_slash body Hs Hin).
    + destruct Hin as [Hin|[]]. discriminate Hin.
Qed.

Lemma max_by_mtime_spec (p : string * Q) (rest : list (string * Q)) :
  In (max_by_mtime p rest) (p :: rest) /\
  forall x, In x (p :: rest) -> snd x <= snd (max_by_mtime p rest).
Proof.
  unfold max_by_mtime. revert p. induction rest as [|y rest IH]; intros p; cbn [fold_left].
  - split; [left; reflexivity|]. intros x [<-|[]]. apply Qle_refl.
  - destruct (Qltb (snd p) (snd y)) eqn:E.
    + destruct (IH y) as [H1 H2]. split; [right; exact H1|].
      intros x [<-|Hx]; [|exact (H2 x Hx)].
      apply Qltb_true in E. specialize (H2 y (or_introl eq_refl)). lra.
    + destruct (IH p) as [H1 H2]. split.
      * destruct H1 as [<-|H1]; [left; reflexivity|right; right; exact H1].
      * intros x [<-|[<-|Hx]].
        -- apply H2. left. reflexivity.
        -- apply Qltb_false in E. specialize (H2 p (or_introl eq_refl)). lra.
        -- apply H2. right. exact Hx.
Qed.

(** A successful generate returns a link to a pdf of latest modification time among those whose name starts with the sample id, with the generator's output as log. *)
Theorem generate_newest_pdf (sample_id : string) (run : option string)
    (listing : list (string * Q)) (url log : string) :
  generate sample_id run listing = JSONResponse url log ->
  run = Some log /\
  exists f t, url = ("/api/download/" ++ f)%string /\ In (f, t) listing /\
    String.prefix sample_id f = true /\ ends_with ".pdf" f = true /\
    (forall f' t', In (f', t') listing -> String.prefix sample_id f' = true ->
       ends_with ".pdf" f' = true -> t' <= t).
Proof.
  unfold generate. destruct (negb (SAFE_match sample_id)); [discriminate|].
  destruct run as [out|]; [|discriminate].
  remember (filter (fun '(f, _) => String.prefix sample_id f && ends_with ".pdf" f) listing) as pdfs
    eqn:Hp.
  destruct pdfs as [|p rest]; [discriminate|]. intros H. injection H as <- <-.
  split; [reflexivity|].
  destruct (max_by_mtime_spec p rest) as [Hin Hmax].
  destruct (max_by_mtime p rest) as [f t] eqn:M. exists f, t.
  rewrite Hp in Hin. apply filter_In in Hin as [Hin Hc]. apply andb_prop in Hc as [Hc1 Hc2].
  split; [reflexivity|]. split; [exact Hin|]. split; [exact Hc1|]. split; [exact Hc2|].
  intros f' t' Hin' H1 H2. apply (Hmax (f', t')). rewrite Hp. apply filter_In.
  split; [exact Hin'|]. rewrite H1, H2. reflexivity.
Qed.

(** ** Witnesses: the theorems applied to concrete samples *)

Lemma erf_lin_mono (a b : Q) : a <= b -> erf_lin a <= erf_lin b.
Proof.
  intros H. unfold erf_lin.
  destruct (Q.max_spec_le a (-1)) as [[? ?]|[? ?]];
  destruct (Q.max_spec_le b (-1)) as [[? ?]|[? ?]];
  destruct (Q.min_spec_le (Qmax a (-1)) 1) as [[? ?]|[? ?]];
  destruct (Q.min_spec_le (Qmax b (-1)) 1) as [[? ?]|[? ?]]; lra.
Qed.

Lemma erf_lin_zero (z : Q) : z == 0 -> erf_lin z == 0.
Proof.
  intros H. unfold erf_lin.
  destruct (Q.max_spec_le z (-1)) as [[? ?]|[? ?]];
  destruct (Q.min_spec_le (Qmax z (-1)) 1) as [[? ?]|[? ?]]; lra.
Qed.

Lemma composite_score_in_range_witness :
  analyze_sample erf_lin log_lin exp_lin abund_fuso_quarter ref_example [] gp_witness
    = Some result_witness /\
  0 <= composite_score result_witness <= 100.
Proof.
  split; [vm_compute; reflexivity|].
  apply (composite_score_in_range erf_lin log_lin exp_lin abund_fuso_quarter ref_example [] gp_witness).
  vm_compute. reflexivity.
Defined.

Lemma oscc_caps_composite_witness :
  analyze_sample erf_lin log_lin exp_lin abund_fuso_quarter ref_example [] gp_witness
    = Some result_witness /\
  assoc OSCC (disease_risks result_witness) <> None /\
  composite_score result_witness <= 50 /\ In TrDominance (decision_trace result_witness).
Proof.
  split; [vm_compute; reflexivity|]. split; [vm_compute; discriminate|].
  apply (oscc_caps_composite erf_lin log_lin exp_lin abund_fuso_quarter ref_example [] gp_witness).
  - vm_compute. reflexivity.
  - vm_compute. discriminate.
Defined.

Lemma low_coverage_abstains_witness :
  analyze_sample erf_lin log_lin exp_lin abund_fuso_quarter ref_example [] gp_witness
    = Some result_witness /\
  coverage_lod (key_metrics result_witness) < 0.4 /\
  category_label result_witness = "Needs review" /\ category_color result_witness = "grey" /\
  exists c, composite_score result_witness = round_to 1 c /\
            clinical_health_index result_witness = round_to 2 (chi_of c).
Proof.
  split; [vm_compute; reflexivity|]. split; [vm_compute; reflexivity|].
  apply (low_coverage_abstains erf_lin log_lin exp_lin abund_fuso_quarter ref_example [] gp_witness).
  - vm_compute. reflexivity.
  - vm_compute. reflexivity.
Defined.

Lemma raw_abundances_renormalized_witness :
  Forall (fun gv => 0 <= snd gv) abund_fuso_quarter /\
  1e-12 <= sum_vals (map snd abund_fuso_quarter) /\
  analyze_sample erf_lin log_lin exp_lin abund_fuso_quarter ref_example [] gp_witness
    = Some result_witness /\
  raw_abundances result_witness = normalize abund_fuso_quarter /\
  sum_vals (map snd (raw_abundances result_witness)) == 1 /\
  Forall (fun gv => 0 <= snd gv) abund_tiny /\
  sum_vals (map snd abund_tiny) < 1e-12 /\
  analyze_sample erf_lin log_lin exp_lin abund_tiny ref_example [] gp_witness = Some result_tiny /\
  Forall2 (fun a b => fst a = fst b /\ snd a == snd b / 1e-12) (raw_abundances result_tiny) abund_tiny.
Proof.
  assert (Hpos : Forall (fun gv => 0 <= snd gv) abund_fuso_quarter)
    by (repeat constructor; vm_compute; discriminate).
  assert (Hsum : 1e-12 <= sum_vals (map snd abund_fuso_quarter))
    by (vm_compute; discriminate).
  assert (Ha : analyze_sample erf_lin log_lin exp_lin abund_fuso_quarter ref_example [] gp_witness
                 = Some result_witness) by (vm_compute; reflexivity).
  assert (Tpos : Forall (fun gv => 0 <= snd gv) abund_tiny)
    by (repeat constructor; vm_compute; discriminate).
  assert (Tsum : sum_vals (map snd abund_tiny) < 1e-12) by (vm_compute; reflexivity).
  assert (Ta : analyze_sample erf_lin log_lin exp_lin abund_tiny ref_example [] gp_witness
                 = Some result_tiny) by (vm_compute; reflexivity).
  destruct (raw_abundances_renormalized erf_lin log_lin exp_lin abund_fuso_quarter
              ref_example [] gp_witness result_witness Hpos Ha) as [R1 [R2 _]].
  destruct (raw_abundances_renormalized erf_lin log_lin exp_lin abund_tiny
              ref_example [] gp_witness result_tiny Tpos Ta) as [_ [_ T3]].
  split; [exact Hpos|]. split; [exact Hsum|]. split; [exact Ha|]. split; [exact R1|].
  split; [exact (R2 Hsum)|]. split; [exact Tpos|]. split; [exact Tsum|]. split; [exact Ta|].
  exact (T3 Tsum).
Defined.


Lemma red_complex_panel_witness :
  p90_of gp_red "Porphyromonas" = Some 0.05 /\ p90_of gp_red "Tannerella" = Some 0.02 /\
  p90_of gp_red "Treponema" = Some 0.03 /\
  option_map level (assoc PERIO (fst (risk_panels abund_red gp_red 2 1 50))) = Some "Moderate".
Proof.
  split; [reflexivity|]. split; [reflexivity|]. split; [reflexivity|].
  exact (red_complex_panel abund_red gp_red 2 1 50 0.05 0.02 0.03 eq_refl eq_refl eq_refl).
Defined.

Lemma missing_genus_gates_witness :
  assoc "Solobacterium" gp_red = None /\ assoc "Fusobacterium" gp_red = None /\
  p90_hit gp_red abund_fuso_30 "Solobacterium" = Qle_bool 1.0 (abund_get abund_fuso_30 "Solobacterium") /\
  match assoc OSCC (fst (risk_panels abund_fuso_30 gp_red 2 1 50)) with
  | Some _ => true | None => false end =
  (Qle_bool 0.25 (abund_get abund_fuso_30 "Fusobacterium") ||
   (Qle_bool 0.2 (abund_get abund_fuso_30 "Fusobacterium") &&
    (Nat.leb 1 (count_hits gp_red abund_fuso_30 FUSO_SYNERGY) || Qle_bool 2 1 || Qltb 50 40.0))).
Proof.
  destruct (missing_genus_gates abund_fuso_30 gp_red 2 1 50) as [Hmiss Hfuso].
  split; [reflexivity|]. split; [reflexivity|].
  split; [exact (Hmiss "Solobacterium" eq_refl)|exact (Hfuso eq_refl)].
Defined.

Lemma robust_percentile_monotone_witness :
  robust_percentile erf_lin 0.4 stats_std = Some pct_lo /\
  robust_percentile erf_lin 0.6 stats_std = Some pct_hi /\
  0.4 <= 0.6 /\ pct_lo <= pct_hi.
Proof.
  assert (Hlo : robust_percentile erf_lin 0.4 stats_std = Some pct_lo)
    by (vm_compute; reflexivity).
  assert (Hhi : robust_percentile erf_lin 0.6 stats_std = Some pct_hi)
    by (vm_compute; reflexivity).
  split; [exact Hlo|]. split; [exact Hhi|]. split; [vm_compute; discriminate|].
  apply (robust_percentile_monotone erf_lin erf_lin_mono stats_std 0.4 0.6 pct_lo pct_hi).
  - intros H. exfalso. apply H. reflexivity.
  - vm_compute. discriminate.
  - exact Hlo.
  - exact Hhi.
Defined.

Lemma percentile_at_median_witness :
  0 < mad_of stats_std /\ ms_median stats_std = Some 0.5 /\
  exists p, robust_percentile erf_lin 0.5 stats_std = Some p /\ p == 50 /\ Qabs (p - 50) <= 1e-6.
Proof.
  split; [reflexivity|]. split; [reflexivity|].
  apply (percentile_at_median erf_lin erf_lin_zero stats_std 0.5); reflexivity.
Defined.

Lemma coverage_lod_in_unit_witness :
  analyze_sample erf_lin log_lin exp_lin abund_fuso_quarter ref_example [] gp_witness
    = Some result_witness /\
  0 <= coverage_lod (key_metrics result_witness) <= 1.
Proof.
  split; [vm_compute; reflexivity|].
  apply (coverage_lod_in_unit erf_lin log_lin exp_lin abund_fuso_quarter ref_example [] gp_witness).
  vm_compute. reflexivity.
Defined.

Lemma normalize_idempotent_witness :
  Forall (fun gv => 0 <= snd gv) abund_fuso_quarter /\
  1e-12 <= sum_vals (map snd abund_fuso_quarter) /\
  Forall2 (fun a b => fst a = fst b /\ snd a == snd b)
    (normalize (normalize abund_fuso_quarter)) (normalize abund_fuso_quarter).
Proof.
  assert (Hpos : Forall (fun gv => 0 <= snd gv) abund_fuso_quarter)
    by (repeat constructor; vm_compute; discriminate).
  assert (Hsum : 1e-12 <= sum_vals (map snd abund_fuso_quarter))
    by (vm_compute; discriminate).
  split; [exact Hpos|]. split; [exact Hsum|].
  exact (normalize_idempotent abund_fuso_quarter Hpos Hsum).
Defined.

Lemma no_lod_full_coverage_witness :
  (forall g, gp_get [] g gp_lod 0.0 <= 0) /\
  Exists (fun gv => 0 < snd gv) abund_fuso_quarter /\
  analyze_sample erf_lin log_lin exp_lin abund_fuso_quarter ref_example [] []
    = Some result_no_lod /\
  coverage_lod (key_metrics result_no_lod) == 1 /\
  category_label result_no_lod <> "Needs review" /\ category_color result_no_lod <> "grey".
Proof.
  assert (Hl : forall g, gp_get [] g gp_lod 0.0 <= 0) by (intros g; unfold gp_get; cbn; lra).
  assert (He : Exists (fun gv => 0 < snd gv) abund_fuso_quarter)
    by (constructor; vm_compute; reflexivity).
  assert (Ha : analyze_sample erf_lin log_lin exp_lin abund_fuso_quarter ref_example [] []
                 = Some result_no_lod) by (vm_compute; reflexivity).
  split; [exact Hl|]. split; [exact He|]. split; [exact Ha|].
  exact (no_lod_full_coverage erf_lin log_lin exp_lin abund_fuso_quarter ref_example [] []
           result_no_lod Hl He Ha).
Defined.

Lemma empty_sample_abstains_witness :
  Forall (fun gv => snd gv <= 0) abund_zero /\
  analyze_sample erf_lin log_lin exp_lin abund_zero ref_example [] gp_witness = Some result_zero /\
  coverage_lod (key_metrics result_zero) == 0 /\ shannon_diversity (key_metrics result_zero) == 0 /\
  category_label result_zero = "Needs review" /\ category_color result_zero = "grey" /\
  exists c trace, c == 0 /\ decision_trace result_zero = (trace ++ [TrAbstain c])%list.
Proof.
  assert (Hz : Forall (fun gv => snd gv <= 0) abund_zero)
    by (repeat constructor; vm_compute; discriminate).
  assert (Ha : analyze_sample erf_lin log_lin exp_lin abund_zero ref_example [] gp_witness
                 = Some result_zero) by (vm_compute; reflexivity).
  split; [exact Hz|]. split; [exact Ha|].
  exact (empty_sample_abstains erf_lin log_lin exp_lin abund_zero ref_example [] gp_witness
           result_zero Hz Ha).
Defined.

Lemma dominance_iff_oscc_witness :
  analyze_sample erf_lin log_lin exp_lin abund_fuso_quarter ref_example [] gp_witness
    = Some result_witness /\
  (In TrDominance (decision_trace result_witness) <->
   assoc OSCC (disease_risks result_witness) <> None).
Proof.
  assert (Ha : analyze_sample erf_lin log_lin exp_lin abund_fuso_quarter ref_example [] gp_witness
                 = Some result_witness) by (vm_compute; reflexivity).
  split; [exact Ha|].
  exact (dominance_iff_oscc erf_lin log_lin exp_lin abund_fuso_quarter ref_example [] gp_witness
           result_witness Ha).
Defined.

Lemma fuso_raise_monotone_witness :
  0.1 <= 0.25 /\
  let rs := fst (risk_panels [("Fusobacterium", 0.1); ("Streptococcus", 0.75)] gp_witness 2 1 50) in
  let rs' := fst (risk_panels [("Fusobacterium", 0.25); ("Streptococcus", 0.75)] gp_witness 2 1 50) in
  (assoc OSCC rs <> None -> assoc OSCC rs' <> None) /\
  (assoc HALI rs <> None -> assoc HALI rs' <> None) /\
  assoc PERIO rs = assoc PERIO rs'.
Proof.
  assert (Hf : 0.1 <= 0.25) by (vm_compute; discriminate).
  split; [exact Hf|].
  exact (fuso_raise_monotone [("Streptococcus", 0.75)] gp_witness 2 1 50 0.1 0.25 Hf).
Defined.

Lemma batch_raw_abundances_witness :
  Forall (fun sc => Forall (fun av => 0 <= snd av) (snd sc) /\ 0 < sum_vals (map snd (snd sc)))
    table_example /\
  In ("S1", batch_report_S1)
    (fst (batch_main erf_lin log_lin exp_lin asv_map_example table_example ref_example None gp_witness)) /\
  exists col, In ("S1", col) table_example /\
    Forall2 (fun a b => fst a = fst b /\ snd a == snd b) (raw_abundances batch_report_S1)
      (genus_column asv_map_example col) /\
    sum_vals (map snd (raw_abundances batch_report_S1)) == 1.
Proof.
  assert (Ht : Forall (fun sc => Forall (fun av => 0 <= snd av) (snd sc) /\
                                  0 < sum_vals (map snd (snd sc))) table_example).
  { repeat constructor; vm_compute; try discriminate; reflexivity. }
  assert (Hin : In ("S1", batch_report_S1)
    (fst (batch_main erf_lin log_lin exp_lin asv_map_example table_example ref_example None gp_witness)))
    by (vm_compute; left; reflexivity).
  split; [exact Ht|]. split; [exact Hin|].
  exact (batch_raw_abundances erf_lin log_lin exp_lin asv_map_example table_example ref_example
           None gp_witness "S1" batch_report_S1 Ht Hin).
Defined.

Lemma download_in_reports_dir_witness :
  download (fun _ => true) "S1_Comprehensive_Report.pdf"
    = FileResponse "professional_reports/S1_Comprehensive_Report.pdf" /\
  "professional_reports/S1_Comprehensive_Report.pdf" =
    (REPORTS_DIR ++ "/" ++ "S1_Comprehensive_Report.pdf")%string /\
  (fun _ : string => true) "professional_reports/S1_Comprehensive_Report.pdf" = true /\
  "S1_Comprehensive_Report.pdf" <> "" /\
  ~ In "/"%char (list_ascii_of_string "S1_Comprehensive_Report.pdf").
Proof.
  assert (Hd : download (fun _ => true) "S1_Comprehensive_Report.pdf"
                 = FileResponse "professional_reports/S1_Comprehensive_Report.pdf")
    by (vm_compute; reflexivity).
  split; [exact Hd|].
  exact (download_in_reports_dir (fun _ => true) "S1_Comprehensive_Report.pdf"
           "professional_reports/S1_Comprehensive_Report.pdf" Hd).
Defined.

Lemma generate_newest_pdf_witness :
  generate "S1" (Some "ok") listing_example
    = JSONResponse "/api/download/S10_Comprehensive_Report.pdf" "ok" /\
  Some "ok" = Some "ok" /\
  exists f t, "/api/download/S10_Comprehensive_Report.pdf" = ("/api/download/" ++ f)%string /\
    In (f, t) listing_example /\
    String.prefix "S1" f = true /\ ends_with ".pdf" f = true /\
    (forall f' t', In (f', t') listing_example -> String.prefix "S1" f' = true ->
       ends_with ".pdf" f' = true -> t' <= t).
Proof.
  assert (Hg : generate "S1" (Some "ok") listing_example
                 = JSONResponse "/api/download/S10_Comprehensive_Report.pdf" "ok")
    by (vm_compute; reflexivity).
  split; [exact Hg|].
  exact (generate_newest_pdf "S1" (Some "ok") listing_example
           "/api/download/S10_Comprehensive_Report.pdf" "ok" Hg).
Defined.

Lemma zero_genus_keeps_review_witness :
  analyze_sample erf_lin log_lin exp_lin abund_fuso_quarter ref_example [] gp_witness
    = Some result_witness /\
  analyze_sample erf_lin log_lin exp_lin (("Porphyromonas", 0) :: abund_fuso_quarter)
    ref_example [] gp_witness = Some result_zero_row /\
  category_label result_witness = "Needs review" /\ category_label result_zero_row = "Needs review".
Proof.
  assert (H1 : analyze_sample erf_lin log_lin exp_lin abund_fuso_quarter ref_example [] gp_witness
                 = Some result_witness) by (vm_compute; reflexivity).
  assert (H2 : analyze_sample erf_lin log_lin exp_lin (("Porphyromonas", 0) :: abund_fuso_quarter)
                 ref_example [] gp_witness = Some result_zero_row) by (vm_compute; reflexivity).
  assert (L : category_label result_witness = "Needs review") by (vm_compute; reflexivity).
  split; [exact H1|]. split; [exact H2|]. split; [exact L|].
  exact (zero_genus_keeps_review erf_lin log_lin exp_lin abund_fuso_quarter ref_example [] gp_witness
           "Porphyromonas" result_witness result_zero_row H1 H2 L).
Defined.
